(** * hjarta-di: HTTP middleware collection

    A shallow embedding of the middleware package of the repository
    (listener/middleware): the snowflake request-id generator and the
    RequestID handler, the token bucket rate limiter, the CORS origin
    matcher, the panic recovery wrapper, the logging wrapper and the
    buffering gzip response writer, with the properties the specification
    states about them and further properties read off the code.

    Conventions.
    - Go's [int64] and [uint64] are integers of [Z]; every arithmetic
      operation of the source that can wrap is wrapped explicitly with
      [wrapI64] and [wrapU64].
    - Go strings are [string]; byte slices are [list byte].
    - [http.Header] is a finite map from canonical header names to the list
      of their values.
    - The injected clock of a component is the list of readings its
      successive calls will return; a computation that would need a reading
      past the end of the list yields [None] (it is still waiting).
    - [slog] output is the list of records a call emits.
    - Mutexes are not modelled: the calls on a shared object are taken in
      the order in which they hold its lock.
    - What the package takes from outside the repository and is too large
      to write down here is a parameter: [net/url] parsing in the CORS
      handler, [compress/gzip], [http.DetectContentType] and
      [strconv.ParseFloat] in the compression middleware, [debug.Stack] in
      the recovery middleware. The small functions of [strings] and
      [strconv] are written out. *)

From Stdlib Require Import ZArith Lia QArith Qround Qminmax Lqa Floats Uint63 Ascii String.
From Stdlib Require Import Strings.Byte.
From Stdlib Require Import DecimalString Sorted.
From stdpp Require Import base option list gmap strings.

Set Default Proof Using "Type".

(** ** Machine integers *)

Module Int.
Local Open Scope Z_scope.

Definition wrapU64 (x : Z) : Z := x mod 2 ^ 64.

Definition wrapI64 (x : Z) : Z := (x + 2 ^ 63) mod 2 ^ 64 - 2 ^ 63.

End Int.

(** ** Log records emitted through the process-wide logger *)

Module Slog.

Inductive Level := LevelDebug | LevelInfo | LevelWarn | LevelError.

(** Attribute values; a [time.Duration] is kept as its count of
    nanoseconds, a float as the rational it stands for. *)
Inductive Value :=
  | VString (s : string)
  | VInt (n : Z)
  | VBool (b : bool)
  | VFloat (q : Q)
  | VDuration (ns : Z).

Record Record_ := mkRecord {
  level : Level;
  message : string;
  attrs : list (string * Value)
}.

Definition Warn (m : string) (a : list (string * Value)) : Record_ :=
  mkRecord LevelWarn m a.

Definition Error (m : string) (a : list (string * Value)) : Record_ :=
  mkRecord LevelError m a.

End Slog.

(** ** request_id.go: the snowflake generator *)

Module Snowflake.
Import Int.
Local Open Scope Z_scope.

Definition snowflakeEpochMs : Z := 1767225600000.
Definition snowflakeMachineBits : Z := 16.
Definition snowflakeSequenceBits : Z := 7.
Definition snowflakeMaxSequence : Z := Z.shiftl 1 snowflakeSequenceBits - 1.
Definition snowflakeMachineMask : Z := Z.shiftl 1 snowflakeMachineBits - 1.
Definition maxClockDriftMs : Z := 500.
Definition snowflakeMachineShift : Z := snowflakeSequenceBits.
Definition snowflakeTimestampShift : Z :=
  snowflakeSequenceBits + snowflakeMachineBits.

(** [hash/fnv]'s 64-bit FNV-1a over the bytes of a string. *)
Definition fnvOffset64 : Z := 14695981039346656037.
Definition fnvPrime64 : Z := 1099511628211.

Fixpoint fnv64a (h : Z) (s : string) : Z :=
  match s with
  | EmptyString => h
  | String c s' =>
      fnv64a (wrapU64 (Z.lxor h (Z.of_N (N_of_ascii c)) * fnvPrime64)) s'
  end.

(** The generator; the mutex is not modelled, calls are taken in the order
    in which they acquire it. [timeNow] is the clock argument of the
    operations below. *)
Record snowflakeGenerator := mkGen {
  machineID : Z;
  sequence : Z;
  lastTimestamp : Z
}.

(** Successive results of [timeNow().UnixMilli()]. *)
Definition Clock := list Z.

(** [os.Hostname()] either yields a name or fails. *)
Definition newSnowflakeGenerator (hostname : option string)
  : snowflakeGenerator * list Slog.Record_ :=
  let '(name, logs) :=
    match hostname with
    | Some h => (h, [])
    | None =>
        (EmptyString,
         [Slog.Warn
            "middleware: failed to get hostname for snowflake generator, using empty string"
            []])
    end in
  (mkGen (Z.land (fnv64a fnvOffset64 name) snowflakeMachineMask) 0 0, logs).

(** [t.UnixMilli() - snowflakeEpochMs] for a reading [t] of the clock. *)
Definition sinceEpoch (t : Z) : Z := wrapI64 (t - snowflakeEpochMs).

Definition currentTimestampMs (clock : Clock) : option (Z * Clock) :=
  match clock with
  | [] => None
  | t :: clock' => Some (sinceEpoch t, clock')
  end.

(** [for cond(now) { now = g.currentTimestampMs() }] *)
Fixpoint spinWhile (cond : Z -> bool) (now : Z) (clock : Clock)
  : option (Z * Clock) :=
  if cond now then
    match clock with
    | [] => None
    | t :: clock' => spinWhile cond (sinceEpoch t) clock'
    end
  else Some (now, clock).

Record Generated := mkGenerated {
  gen_id : Z;
  gen_state : snowflakeGenerator;
  gen_clock : Clock;
  gen_logs : list Slog.Record_
}.

Definition millisecond : Z := 1000000.

Definition driftError (drift : Z) : Slog.Record_ :=
  Slog.Error
    "middleware: clock moved backward beyond tolerance, advancing from last known timestamp"
    [("drift"%string, Slog.VDuration (wrapI64 (drift * millisecond)));
     ("maxDrift"%string, Slog.VDuration (wrapI64 (maxClockDriftMs * millisecond)))].

Definition driftWarning (drift : Z) : Slog.Record_ :=
  Slog.Warn "middleware: clock moved backward, spin-waiting"
    [("drift"%string, Slog.VDuration (wrapI64 (drift * millisecond)))].

(** The first block of [generate]: the clock is behind the last timestamp. *)
Definition clockBackward (g : snowflakeGenerator) (now : Z) (clock : Clock)
  : option (Z * Z * Clock * list Slog.Record_) :=
  if now <? lastTimestamp g then
    let drift := wrapI64 (lastTimestamp g - now) in
    if drift >? maxClockDriftMs then
      Some (wrapI64 (lastTimestamp g + 1), 0, clock,
            [driftError drift])
    else
      '(now', clock') ← spinWhile (fun n => n <? lastTimestamp g) now clock;
      Some (now', sequence g, clock',
            [driftWarning drift])
  else Some (now, sequence g, clock, []).

(** The second block: same millisecond, or a later one. *)
Definition nextSequence (g : snowflakeGenerator) (now seq : Z) (clock : Clock)
  : option (Z * Z * Clock) :=
  if now =? lastTimestamp g then
    let seq' := wrapU64 (seq + 1) in
    if seq' >? snowflakeMaxSequence then
      '(now', clock') ← spinWhile (fun n => n <=? lastTimestamp g) now clock;
      Some (now', 0, clock')
    else Some (now, seq', clock)
  else Some (now, 0, clock).

Definition composeID (now mid seq : Z) : Z :=
  let ts := Z.max now 0 in
  Z.lor
    (Z.lor (wrapU64 (Z.shiftl (wrapU64 ts) snowflakeTimestampShift))
           (wrapU64 (Z.shiftl mid snowflakeMachineShift)))
    seq.

(** [generate] up to the 64-bit value [id]. *)
Definition generateID (g : snowflakeGenerator) (clock : Clock)
  : option Generated :=
  '(now, clock1) ← currentTimestampMs clock;
  '(now1, seq1, clock2, logs) ← clockBackward g now clock1;
  '(now2, seq2, clock3) ← nextSequence g now1 seq1 clock2;
  Some (mkGenerated (composeID now2 (machineID g) seq2)
          (mkGen (machineID g) seq2 now2) clock3 logs).

(** [encoding/hex] of the big-endian bytes of a [uint64]. *)
Definition hexDigit (n : Z) : ascii :=
  match n with
  | 0 => "0" | 1 => "1" | 2 => "2" | 3 => "3" | 4 => "4" | 5 => "5"
  | 6 => "6" | 7 => "7" | 8 => "8" | 9 => "9" | 10 => "a" | 11 => "b"
  | 12 => "c" | 13 => "d" | 14 => "e" | _ => "f"
  end%char.

Fixpoint hexNibbles (n : nat) (v : Z) : string :=
  match n with
  | O => EmptyString
  | S n' =>
      String (hexDigit (Z.land (Z.shiftr v (4 * Z.of_nat n')) 15))
             (hexNibbles n' v)
  end.

Definition hexEncode64 (v : Z) : string := hexNibbles 16 v.

Definition generate (g : snowflakeGenerator) (clock : Clock)
  : option (string * snowflakeGenerator * Clock * list Slog.Record_) :=
  r ← generateID g clock;
  Some (hexEncode64 (gen_id r), gen_state r, gen_clock r, gen_logs r).

(** The test helper [decodeSnowflakeID], on the 64-bit value. *)
Definition decodeTimestamp (id : Z) : Z := Z.shiftr id snowflakeTimestampShift.
Definition decodeMachine (id : Z) : Z :=
  Z.land (Z.shiftr id snowflakeMachineShift) snowflakeMachineMask.
Definition decodeSequence (id : Z) : Z := Z.land id snowflakeMaxSequence.

(** [n] calls in a row on one generator, sharing one clock; the result
    lists what each call produced, in call order. *)
Fixpoint generateN (n : nat) (g : snowflakeGenerator) (clock : Clock)
  : option (list Generated) :=
  match n with
  | O => Some []
  | S n' =>
      r ← generateID g clock;
      rs ← generateN n' (gen_state r) (gen_clock r);
      Some (r :: rs)
  end.

(** The same result with other log records. *)
Definition withLogs (logs : list Slog.Record_) (r : Generated) : Generated :=
  mkGenerated (gen_id r) (gen_state r) (gen_clock r) logs.

(** A generator as the constructor and [generate] leave it. *)
Definition wf (g : snowflakeGenerator) : Prop :=
  0 <= lastTimestamp g < 2 ^ 41 /\
  0 <= sequence g <= 127 /\
  0 <= machineID g < 2 ^ 16.

Definition key (g : snowflakeGenerator) : Z :=
  lastTimestamp g * 2 ^ 23 + machineID g * 2 ^ 7 + sequence g.

(** Five calls; the clock stands still, steps back 10 ms, then 1 s. *)
Definition sampleClock : Clock :=
  map (fun d => snowflakeEpochMs + d) [1000; 1000; 990; 1000; 0; 2000].

End Snowflake.

(** ** net/http: headers and the response writer under the middlewares *)

Module Http.
Local Open Scope Z_scope.

(** Header names are written in their canonical form throughout, as the
    source does. *)
Abbreviation Header := (gmap string (list string)).

Definition Get (h : Header) (k : string) : string :=
  match h !! k with
  | Some (v :: _) => v
  | _ => EmptyString
  end.

Definition Set_ (h : Header) (k v : string) : Header := <[k := [v]]> h.

Definition Add (h : Header) (k v : string) : Header :=
  <[k := default [] (h !! k) ++ [v]]> h.

Definition Del (h : Header) (k : string) : Header := delete k h.

Definition StatusSwitchingProtocols : Z := 101.
Definition StatusOK : Z := 200.
Definition StatusNoContent : Z := 204.
Definition StatusPartialContent : Z := 206.
Definition StatusNotModified : Z := 304.
Definition StatusTooManyRequests : Z := 429.
Definition StatusInternalServerError : Z := 500.

Inductive error := ErrWrite | ErrNotSupported | ErrHijacked.

(** The writer the outermost middleware is handed: what has reached the
    transport. [status] is the final status line once it is sent;
    informational (1xx) status lines are sent as they come and do not end
    the header. [canFlush] and [canHijack] say whether the transport
    implements [http.Flusher] and [http.Hijacker]; a [broken] transport
    fails every write. *)
Record ResponseWriter := mkWriter {
  header : Header;
  status : option Z;
  informational : list Z;
  body : list byte;
  flushes : nat;
  hijacked : bool;
  canFlush : bool;
  canHijack : bool;
  broken : bool
}.

Definition newRecorder : ResponseWriter :=
  mkWriter ∅ None [] [] 0 false true false false.

Definition withHeader (w : ResponseWriter) (h : Header) : ResponseWriter :=
  mkWriter h (status w) (informational w) (body w) (flushes w) (hijacked w)
    (canFlush w) (canHijack w) (broken w).

Definition withStatus (w : ResponseWriter) (code : Z) : ResponseWriter :=
  mkWriter (header w) (Some code) (informational w) (body w) (flushes w)
    (hijacked w) (canFlush w) (canHijack w) (broken w).

Definition withInformational (w : ResponseWriter) (code : Z)
  : ResponseWriter :=
  mkWriter (header w) (status w) (informational w ++ [code]) (body w)
    (flushes w) (hijacked w) (canFlush w) (canHijack w) (broken w).

Definition withBody (w : ResponseWriter) (b : list byte) : ResponseWriter :=
  mkWriter (header w) (status w) (informational w) b (flushes w)
    (hijacked w) (canFlush w) (canHijack w) (broken w).

Definition isInformational (code : Z) : bool :=
  (100 <=? code) && (code <=? 199) && negb (code =? StatusSwitchingProtocols).

(** Only the first final status line is sent. *)
Definition WriteHeader (w : ResponseWriter) (code : Z) : ResponseWriter :=
  match status w with
  | Some _ => w
  | None =>
      if isInformational code then withInformational w code
      else withStatus w code
  end.

Definition Write (w : ResponseWriter) (b : list byte)
  : ResponseWriter * option error :=
  if hijacked w then (w, Some ErrHijacked)
  else if broken w then (w, Some ErrWrite)
  else
    let w' := WriteHeader w StatusOK in
    (withBody w' (body w' ++ b), None).

(** [http.NewResponseController(w).Flush()] *)
Definition Flush (w : ResponseWriter) : ResponseWriter * option error :=
  if canFlush w then
    let w' := WriteHeader w StatusOK in
    (mkWriter (header w') (status w') (informational w') (body w')
       (S (flushes w')) (hijacked w') (canFlush w') (canHijack w')
       (broken w'), None)
  else (w, Some ErrNotSupported).

(** [http.NewResponseController(w).Hijack()] *)
Definition Hijack (w : ResponseWriter) : ResponseWriter * option error :=
  if canHijack w then
    (mkWriter (header w) (status w) (informational w) (body w) (flushes w)
       true (canFlush w) (canHijack w) (broken w), None)
  else (w, Some ErrNotSupported).

Definition newline : string := String (ascii_of_nat 10) EmptyString.

(** [http.Error] *)
Definition Error (w : ResponseWriter) (msg : string) (code : Z)
  : ResponseWriter :=
  let h := Del (header w) "Content-Length" in
  let h := Set_ h "Content-Type" "text/plain; charset=utf-8" in
  let h := Set_ h "X-Content-Type-Options" "nosniff" in
  let w := WriteHeader (withHeader w h) code in
  (Write w (list_byte_of_string (msg +:+ newline))).1.

End Http.

(** ** strconv *)

Module Strconv.

Definition Itoa (n : Z) : string := NilZero.string_of_int (Z.to_int n).

End Strconv.

(** ** ratelimit.go: the token bucket

    [float64] quantities are rationals: every operation is taken exact, so
    the model is the limiter up to IEEE-754 rounding. Instants and
    [time.Duration]s are integer counts of nanoseconds. *)

Module RateLimit.
Local Open Scope Q_scope.

Definition second : Z := 1000000000.
Definition maxDuration : Z := 2 ^ 63 - 1.
Definition minDuration : Z := - 2 ^ 63.

(** [Time.Sub] saturates at the ends of the [Duration] range. *)
Definition Sub (t u : Z) : Z := Z.max minDuration (Z.min maxDuration (t - u)).

(** [Duration.Seconds] *)
Definition Seconds (d : Z) : Q := inject_Z d / inject_Z second.

(** Conversion of a float to an integer: the fraction is discarded. *)
Definition truncate (q : Q) : Z :=
  if Qle_bool 0 q then Qfloor q else Qceiling q.

(** [time.Duration(x)] for a float [x]. Out of the [int64] range the
    result depends on the platform; it is taken as on amd64. *)
Definition toDuration (q : Q) : Z :=
  let d := truncate q in
  if ((minDuration <=? d) && (d <=? maxDuration))%Z then d else minDuration.

Record tokenBucket := mkBucket {
  tokens : Q;
  maxTokens : Q;
  refillRate : Q;
  lastRefillTime : Z
}.

Definition newTokenBucket (requestsPerSecond : Q) (burst : Z) (now : Z)
  : tokenBucket :=
  mkBucket (inject_Z burst) (inject_Z burst) requestsPerSecond now.

(** The mutex is not modelled; [now] is the reading of [time.Now()]. *)
Definition tryAcquire (tb : tokenBucket) (now : Z)
  : bool * Z * tokenBucket :=
  let elapsed := Qmax 0 (Seconds (Sub now (lastRefillTime tb))) in
  let tokens' := Qmin (maxTokens tb) (tokens tb + elapsed * refillRate tb) in
  if Qle_bool 1 tokens' then
    (true, 0%Z,
     mkBucket (tokens' - 1) (maxTokens tb) (refillRate tb) now)
  else
    let deficit := 1 - tokens' in
    let retryAfter :=
      toDuration (deficit / refillRate tb * inject_Z second) in
    (false, retryAfter,
     mkBucket tokens' (maxTokens tb) (refillRate tb) now).

(** The constructor part of [RateLimit]: defaults, warnings, the bucket. *)
Definition RateLimit (requestsPerSecond : Q) (burst : Z) (now : Z)
  : tokenBucket * list Slog.Record_ :=
  let '(rps, logs1) :=
    if Qle_bool requestsPerSecond 0 then
      (1, [Slog.Warn
             "middleware: requestsPerSecond must be positive, using default"
             [("provided"%string, Slog.VFloat requestsPerSecond);
              ("default"%string, Slog.VFloat 1)]])
    else (requestsPerSecond, []) in
  let '(burst', logs2) :=
    if (burst <=? 0)%Z then
      (1%Z, [Slog.Warn "middleware: burst must be positive, using default"
               [("provided"%string, Slog.VInt burst);
                ("default"%string, Slog.VInt 1)]])
    else (burst, []) in
  (newTokenBucket rps burst' now, logs1 ++ logs2).

(** One request through the handler [RateLimit] returns. The boolean tells
    whether [next.ServeHTTP] was called (on the writer, untouched). *)
Definition serve (tb : tokenBucket) (now : Z) (w : Http.ResponseWriter)
  : Http.ResponseWriter * bool * tokenBucket :=
  let '(allowed, retryAfter, tb') := tryAcquire tb now in
  if allowed then (w, true, tb')
  else
    let seconds := Z.max (Qceiling (Seconds retryAfter)) 1 in
    let w :=
      Http.withHeader w
        (Http.Set_ (Http.header w) "Retry-After" (Strconv.Itoa seconds)) in
    (Http.Error w "Too Many Requests" Http.StatusTooManyRequests, false, tb').

(** The deficit time of [tryAcquire] in nanoseconds as binary64 computes
    it, before the conversion to [time.Duration]. *)
Definition deficitNanos64 (tokens refillRate : float) : float :=
  ((1 - tokens) / refillRate * 1000000000)%float.





End RateLimit.

(** ** strings: the functions of Go's [strings] package the middlewares
    call, on byte strings. Case mapping and white space are those of ASCII,
    which is what these functions do on ASCII input; separators are the
    single bytes the source passes. *)

Module Strings.

Definition isUpper (c : ascii) : bool :=
  let n := nat_of_ascii c in (65 <=? n)%nat && (n <=? 90)%nat.

Definition lowerByte (c : ascii) : ascii :=
  if isUpper c then ascii_of_nat (nat_of_ascii c + 32) else c.

Fixpoint ToLower (s : string) : string :=
  match s with
  | EmptyString => EmptyString
  | String c s' => String (lowerByte c) (ToLower s')
  end.

Definition EqualFold (s t : string) : bool :=
  String.eqb (ToLower s) (ToLower t).

(** Tab, line feed, vertical tab, form feed, carriage return, space. *)
Definition isSpace (c : ascii) : bool :=
  let n := nat_of_ascii c in
  ((9 <=? n)%nat && (n <=? 13)%nat) || (n =? 32)%nat.

Fixpoint trimLeft (s : string) : string :=
  match s with
  | String c s' => if isSpace c then trimLeft s' else s
  | EmptyString => EmptyString
  end.

(** Drops trailing white space: a suffix made of white space only becomes
    the empty string. *)
Fixpoint trimRight (s : string) : string :=
  match s with
  | EmptyString => EmptyString
  | String c s' =>
      match trimRight s' with
      | EmptyString => if isSpace c then EmptyString else String c EmptyString
      | t => String c t
      end
  end.

Definition TrimSpace (s : string) : string := trimRight (trimLeft s).

(** [strings.Cut(s, sep)] for a one-byte [sep]. *)
Fixpoint Cut (s : string) (sep : ascii) : string * string * bool :=
  match s with
  | EmptyString => (EmptyString, EmptyString, false)
  | String c s' =>
      if Ascii.eqb c sep then (EmptyString, s', true)
      else
        let '(before, after, found) := Cut s' sep in
        if found then (String c before, after, true)
        else (s, EmptyString, false)
  end.

(** The parts [strings.SplitSeq(s, sep)] yields, for a one-byte [sep]. *)
Fixpoint SplitSeq (s : string) (sep : ascii) : list string :=
  match s with
  | EmptyString => [EmptyString]
  | String c s' =>
      if Ascii.eqb c sep then EmptyString :: SplitSeq s' sep
      else
        match SplitSeq s' sep with
        | part :: parts => String c part :: parts
        | [] => [String c EmptyString]
        end
  end.

Fixpoint HasPrefix (s prefix : string) : bool :=
  match prefix, s with
  | EmptyString, _ => true
  | String p prefix', String c s' => Ascii.eqb c p && HasPrefix s' prefix'
  | String _ _, EmptyString => false
  end.

Fixpoint Contains (s substr : string) : bool :=
  HasPrefix s substr ||
  match s with
  | EmptyString => false
  | String _ s' => Contains s' substr
  end.

(** [strings.Count(s, sep)] for a one-byte [sep]. *)
Fixpoint Count (s : string) (sep : ascii) : Z :=
  match s with
  | EmptyString => 0
  | String c s' => ((if Ascii.eqb c sep then 1 else 0) + Count s' sep)%Z
  end.

Fixpoint Join (elems : list string) (sep : string) : string :=
  match elems with
  | [] => EmptyString
  | [e] => e
  | e :: rest => e +:+ sep +:+ Join rest sep
  end.

End Strings.

(** ** net/http requests *)

Module Request.

(** [ContextRequestID] is what [GetRequestID(r.Context())] returns: the
    identifier stored by the RequestID middleware, or the empty string. *)
Record t := mk {
  Method : string;
  Path : string;
  Header : Http.Header;
  ContextRequestID : string
}.

End Request.

(** ** cors.go: the origin matcher *)

Module Cors.
Local Open Scope Z_scope.

Inductive originError :=
  | errOriginHasScheme
  | errOriginHasPath
  | errOriginHasPort
  | errOriginIsWildcard
  | errOriginIsEmpty.

Definition errorText (e : originError) : string :=
  match e with
  | errOriginHasScheme => "origin contains scheme (://)"
  | errOriginHasPath => "origin contains path (/)"
  | errOriginHasPort => "origin contains port"
  | errOriginIsWildcard => "origin is wildcard (*)"
  | errOriginIsEmpty => "origin is empty"
  end.

(** A validator returns [None] for Go's [nil] error. *)
Definition OriginValidator := string -> option originError.

Definition defaultCORSMaxAge : Z := 3600.

(** A [nil] validator of the slice is [None]. *)
Record corsConfig := mkConfig {
  allowedOrigins : list string;
  allowedMethods : list string;
  allowedHeaders : list string;
  exposedHeaders : list string;
  validateOrigins : list (option OriginValidator);
  allowCredentials : bool;
  maxAge : Z
}.

Definition CORSOption := corsConfig -> corsConfig.

Definition WithAllowedOrigins (origins : list string) : CORSOption :=
  fun c => mkConfig origins (allowedMethods c) (allowedHeaders c)
             (exposedHeaders c) (validateOrigins c) (allowCredentials c)
             (maxAge c).

Definition WithAllowedMethods (methods : list string) : CORSOption :=
  fun c => mkConfig (allowedOrigins c) methods (allowedHeaders c)
             (exposedHeaders c) (validateOrigins c) (allowCredentials c)
             (maxAge c).

Definition WithAllowedHeaders (headers : list string) : CORSOption :=
  fun c => mkConfig (allowedOrigins c) (allowedMethods c) headers
             (exposedHeaders c) (validateOrigins c) (allowCredentials c)
             (maxAge c).

Definition WithExposedHeaders (headers : list string) : CORSOption :=
  fun c => mkConfig (allowedOrigins c) (allowedMethods c) (allowedHeaders c)
             headers (validateOrigins c) (allowCredentials c) (maxAge c).

Definition WithMaxAge (seconds : Z) : CORSOption :=
  fun c => mkConfig (allowedOrigins c) (allowedMethods c) (allowedHeaders c)
             (exposedHeaders c) (validateOrigins c) (allowCredentials c)
             seconds.

Definition WithAllowCredentials : CORSOption :=
  fun c => mkConfig (allowedOrigins c) (allowedMethods c) (allowedHeaders c)
             (exposedHeaders c) (validateOrigins c) true (maxAge c).

Definition WithOriginValidators (validators : list (option OriginValidator))
  : CORSOption :=
  fun c => mkConfig (allowedOrigins c) (allowedMethods c) (allowedHeaders c)
             (exposedHeaders c) validators (allowCredentials c) (maxAge c).

Definition ValidateNoScheme : OriginValidator :=
  fun origin =>
    if Strings.Contains origin "://" then Some errOriginHasScheme else None.

Definition ValidateNoPath : OriginValidator :=
  fun origin =>
    if Strings.Contains origin "/" then Some errOriginHasPath else None.

Definition ValidateNoPort : OriginValidator :=
  fun origin =>
    if Strings.Count origin ":" =? 1 then Some errOriginHasPort
    else if Strings.Contains origin "]:" then Some errOriginHasPort
    else None.

Definition ValidateNoWildcard : OriginValidator :=
  fun origin =>
    if String.eqb origin "*" then Some errOriginIsWildcard else None.

Definition ValidateNotEmpty : OriginValidator :=
  fun origin =>
    if String.eqb origin "" then Some errOriginIsEmpty else None.

Definition ValidateHostname : list (option OriginValidator) :=
  [Some ValidateNoScheme; Some ValidateNoPath; Some ValidateNoPort;
   Some ValidateNoWildcard; Some ValidateNotEmpty].

Fixpoint validateOrigin (origin : string)
    (validators : list (option OriginValidator))
  : bool * list Slog.Record_ :=
  match validators with
  | [] => (true, [])
  | None :: rest => validateOrigin origin rest
  | Some v :: rest =>
      match v origin with
      | Some err =>
          (false,
           [Slog.Error "middleware: CORS invalid origin, skipping"
              [("origin"%string, Slog.VString origin);
               ("error"%string, Slog.VString (errorText err))]])
      | None => validateOrigin origin rest
      end
  end.

Definition defaultConfig : corsConfig :=
  mkConfig ["*"%string] ["GET"; "HEAD"; "POST"]%string
    ["Origin"; "Accept"; "Content-Type"; "X-Requested-With"]%string
    [] [] false defaultCORSMaxAge.

(** [for _, opt := range opts]; a [nil] option is skipped. *)
Fixpoint applyOptions (opts : list (option CORSOption)) (cfg : corsConfig)
  : corsConfig :=
  match opts with
  | [] => cfg
  | None :: rest => applyOptions rest cfg
  | Some opt :: rest => applyOptions rest (opt cfg)
  end.

(** The loop over [cfg.allowedOrigins]: the set of lower-cased hostnames
    and the wildcard flag, with what the validators logged. *)
Fixpoint collectOrigins (origins : list string)
    (validators : list (option OriginValidator))
    (allowedHostnames : gset string) (wildcard : bool)
  : gset string * bool * list Slog.Record_ :=
  match origins with
  | [] => (allowedHostnames, wildcard, [])
  | hostname :: rest =>
      let '(valid, logs) := validateOrigin hostname validators in
      let '(hosts, wild, logs') :=
        if negb valid then
          collectOrigins rest validators allowedHostnames wildcard
        else if String.eqb hostname "" then
          collectOrigins rest validators allowedHostnames wildcard
        else if String.eqb hostname "*" then
          collectOrigins rest validators allowedHostnames true
        else
          collectOrigins rest validators
            ({[Strings.ToLower hostname]} ∪ allowedHostnames) wildcard in
      (hosts, wild, logs ++ logs')
  end.

Definition credentialsWarning : Slog.Record_ :=
  Slog.Warn
    "middleware: CORS AllowCredentials with only wildcard origin is invalid, disabling credentials"
    [].

(** What the closure returned by [CORS] has captured. *)
Record middleware := mkMiddleware {
  allowedHostnames : gset string;
  wildcard : bool;
  credentials : bool;
  cfgMaxAge : Z;
  methods : string;
  headers : string;
  exposed : string;
  maxAgeText : string
}.

Definition CORS (opts : list (option CORSOption))
  : middleware * list Slog.Record_ :=
  let cfg := applyOptions opts defaultConfig in
  let '(hosts, wild, logs) :=
    collectOrigins (allowedOrigins cfg) (validateOrigins cfg) ∅ false in
  let '(creds, wild', logs') :=
    if allowCredentials cfg then
      if wild && bool_decide (size hosts = 0%nat) then
        (false, wild, [credentialsWarning])
      else (true, false, [])
    else (false, wild, []) in
  (mkMiddleware hosts wild' creds (maxAge cfg)
     (Strings.Join (allowedMethods cfg) ", ")
     (Strings.Join (allowedHeaders cfg) ", ")
     (Strings.Join (exposedHeaders cfg) ", ")
     (Strconv.Itoa (maxAge cfg)),
   logs ++ logs').

Definition MethodOptions : string := "OPTIONS".

Definition setHeader (w : Http.ResponseWriter) (k v : string)
  : Http.ResponseWriter :=
  Http.withHeader w (Http.Set_ (Http.header w) k v).

Definition addHeader (w : Http.ResponseWriter) (k v : string)
  : Http.ResponseWriter :=
  Http.withHeader w (Http.Add (Http.header w) k v).

Section Handler.

(** [url.Parse(origin)] followed by [Hostname()] on its result; [None] when
    [url.Parse] returns an error. *)
Variable urlHostname : string -> option string.

Definition extractHostname (origin : string) : string :=
  match urlHostname origin with
  | None => EmptyString
  | Some hostname => hostname
  end.

(** The handler; the boolean tells whether [next.ServeHTTP(w, r)] is
    called, on the writer returned. *)
Definition serve (m : middleware) (r : Request.t) (w : Http.ResponseWriter)
  : Http.ResponseWriter * bool :=
  let w := addHeader w "Vary" "Origin" in
  let origin := Http.Get (Request.Header r) "Origin" in
  if String.eqb origin "" then (w, true)
  else
    let hostname := Strings.ToLower (extractHostname origin) in
    let matched := bool_decide (hostname ∈ allowedHostnames m) in
    if negb matched && negb (wildcard m) then (w, true)
    else
      let w :=
        if wildcard m then setHeader w "Access-Control-Allow-Origin" "*"
        else setHeader w "Access-Control-Allow-Origin" origin in
      let w :=
        if credentials m
        then setHeader w "Access-Control-Allow-Credentials" "true"
        else w in
      let w :=
        if negb (String.eqb (exposed m) "")
        then setHeader w "Access-Control-Expose-Headers" (exposed m)
        else w in
      if String.eqb (Request.Method r) MethodOptions &&
         negb (String.eqb
                 (Http.Get (Request.Header r) "Access-Control-Request-Method")
                 "")
      then
        let w := addHeader w "Vary" "Access-Control-Request-Method" in
        let w := addHeader w "Vary" "Access-Control-Request-Headers" in
        let w :=
          if negb (String.eqb (methods m) "")
          then setHeader w "Access-Control-Allow-Methods" (methods m)
          else w in
        let w :=
          if negb (String.eqb (headers m) "")
          then setHeader w "Access-Control-Allow-Headers" (headers m)
          else w in
        let w :=
          if cfgMaxAge m >? 0
          then setHeader w "Access-Control-Max-Age" (maxAgeText m)
          else w in
        (Http.WriteHeader w Http.StatusNoContent, false)
      else (w, true).

End Handler.

(** A reading of origins of the shape scheme://host or scheme://host:port,
    with a host free of colons and slashes: the hostname [net/url] reports
    on them. It serves to run [serve] on examples. *)
Definition schemeHostPort (origin : string) : option string :=
  let '(_, rest, found) := Strings.Cut origin ":" in
  if found && Strings.HasPrefix rest "//" then
    let authority := String.substring 2 (String.length rest - 2) rest in
    let '(host, _, _) := Strings.Cut authority ":" in
    Some host
  else None.


Definition getRequest (origin : string) : Request.t :=
  Request.mk "GET" "/" (<["Origin"%string := [origin]]> ∅) "".

Definition preflightRequest (origin : string) : Request.t :=
  Request.mk "OPTIONS" "/"
    (<["Access-Control-Request-Method"%string := ["POST"%string]]>
       (<["Origin"%string := [origin]]> ∅)) "".

End Cors.

(** ** Handlers

    A wrapped handler is the sequence of calls it makes on the writer it is
    given, followed by a normal return or a panic. The writer is any
    implementation of the [http.ResponseWriter] interface together with the
    [Flush] and [Hijack] that [http.ResponseController] finds on it. A status
    code passed to [WriteHeader] lies between 100 and 999 (the transport
    panics on others). *)

Module Handler.

Inductive op :=
  | SetHeader (k v : string)
  | AddHeader (k v : string)
  | DelHeader (k : string)
  | WriteHeader (code : Z)
  | Write (b : list byte)
  | Flush
  | Hijack.

(** The value given to [panic]: the sentinel [http.ErrAbortHandler], another
    [error], or a value that is no [error]; [text] is its [%v] rendering. *)
Inductive panicValue :=
  | ErrAbortHandler
  | OtherError (text : string)
  | NonError (text : string).

Definition text (v : panicValue) : string :=
  match v with
  | ErrAbortHandler => "net/http: abort Handler"
  | OtherError t => t
  | NonError t => t
  end.

Inductive ending := Return | Panic (v : panicValue).

Record t := mk {
  ops : list op;
  end_ : ending
}.

Class Writer (W : Type) := {
  getHeader : W -> Http.Header;
  putHeader : W -> Http.Header -> W;
  writeHeader : W -> Z -> W;
  write : W -> list byte -> W * option Http.error;
  flush : W -> W;
  hijack : W -> W * option Http.error
}.

Definition step {W} `{Writer W} (w : W) (o : op) : W :=
  match o with
  | SetHeader k v => putHeader w (Http.Set_ (getHeader w) k v)
  | AddHeader k v => putHeader w (Http.Add (getHeader w) k v)
  | DelHeader k => putHeader w (Http.Del (getHeader w) k)
  | WriteHeader code => writeHeader w code
  | Write b => (write w b).1
  | Flush => flush w
  | Hijack => (hijack w).1
  end.

Definition run {W} `{Writer W} (ops : list op) (w : W) : W :=
  fold_left step ops w.

Definition validOp (o : op) : Prop :=
  match o with
  | WriteHeader code => (100 <= code <= 999)%Z
  | _ => True
  end.

(** The bytes given to [Write], call after call. *)
Definition written (ops : list op) : list byte :=
  concat (omap (fun o => match o with Write b => Some b | _ => None end) ops).

#[global] Instance transportWriter : Writer Http.ResponseWriter := {
  getHeader := Http.header;
  putHeader := Http.withHeader;
  writeHeader := Http.WriteHeader;
  write := Http.Write;
  flush := fun w => (Http.Flush w).1;
  hijack := Http.Hijack
}.

End Handler.

(** ** recovery.go *)

Module Recovery.
Local Open Scope Z_scope.

Record recoveryWriter := mkRecoveryWriter {
  ResponseWriter : Http.ResponseWriter;
  written : bool
}.

Definition WriteHeader (w : recoveryWriter) (code : Z) : recoveryWriter :=
  mkRecoveryWriter (Http.WriteHeader (ResponseWriter w) code)
    (if (code =? Http.StatusSwitchingProtocols) || (code >=? Http.StatusOK)
     then true else written w).

Definition Write (w : recoveryWriter) (b : list byte)
  : recoveryWriter * option Http.error :=
  let '(rw, err) := Http.Write (ResponseWriter w) b in
  (mkRecoveryWriter rw true, err).

Definition Flush (w : recoveryWriter) : recoveryWriter :=
  let '(rw, err) := Http.Flush (ResponseWriter w) in
  mkRecoveryWriter rw (if err is None then true else written w).

Definition Hijack (w : recoveryWriter) : recoveryWriter * option Http.error :=
  let '(rw, err) := Http.Hijack (ResponseWriter w) in
  (mkRecoveryWriter rw (if err is None then true else written w), err).

Definition Unwrap (w : recoveryWriter) : Http.ResponseWriter :=
  ResponseWriter w.

#[global] Instance recoveryWriterWriter : Handler.Writer recoveryWriter := {
  getHeader := fun w => Http.header (ResponseWriter w);
  putHeader := fun w h =>
    mkRecoveryWriter (Http.withHeader (ResponseWriter w) h) (written w);
  writeHeader := WriteHeader;
  write := Write;
  flush := Flush;
  hijack := Hijack
}.

(** [http.Error(recWriter, msg, code)], through the methods of the wrapper. *)
Definition httpError (w : recoveryWriter) (msg : string) (code : Z)
  : recoveryWriter :=
  let h := Http.Del (Handler.getHeader w) "Content-Length" in
  let h := Http.Set_ h "Content-Type" "text/plain; charset=utf-8" in
  let h := Http.Set_ h "X-Content-Type-Options" "nosniff" in
  let w := WriteHeader (Handler.putHeader w h) code in
  (Write w (list_byte_of_string (msg +:+ Http.newline))).1.

Definition panicAttrs (rec : Handler.panicValue) (stack : string)
    (r : Request.t) : list (string * Slog.Value) :=
  let attrs :=
    [("panic"%string, Slog.VString (Handler.text rec));
     ("stack"%string, Slog.VString stack);
     ("method"%string, Slog.VString (Request.Method r));
     ("path"%string, Slog.VString (Request.Path r))] in
  if negb (String.eqb (Request.ContextRequestID r) "")
  then attrs ++ [("request_id"%string,
                  Slog.VString (Request.ContextRequestID r))]
  else attrs.

(** The handler [Recovery] returns, around [next]; [stack] is what
    [debug.Stack()] yields in the deferred function. The result tells how
    the handler itself ends: a [Panic] is one it raises again. *)
Definition Recovery (next : Handler.t) (stack : string) (r : Request.t)
    (w : Http.ResponseWriter)
  : Http.ResponseWriter * Handler.ending * list Slog.Record_ :=
  let recWriter := Handler.run (Handler.ops next) (mkRecoveryWriter w false) in
  match Handler.end_ next with
  | Handler.Return => (ResponseWriter recWriter, Handler.Return, [])
  | Handler.Panic Handler.ErrAbortHandler =>
      (ResponseWriter recWriter, Handler.Panic Handler.ErrAbortHandler, [])
  | Handler.Panic rec =>
      let attrs := panicAttrs rec stack r in
      if written recWriter then
        (ResponseWriter recWriter, Handler.Return,
         [Slog.Error "panic recovered after response was already written"
            (attrs ++ [("response_already_written"%string,
                        Slog.VBool true)])])
      else
        (ResponseWriter
           (httpError recWriter "Internal Server Error"
              Http.StatusInternalServerError),
         Handler.Return,
         [Slog.Error "panic recovered" attrs])
  end.

(** While [written] is false nothing has reached the transport but headers
    of the map and informational status lines. *)
Definition untouched (w0 : Http.ResponseWriter) (rw : recoveryWriter) : Prop :=
  Http.status (ResponseWriter rw) = None /\
  Http.hijacked (ResponseWriter rw) = Http.hijacked w0 /\
  Http.broken (ResponseWriter rw) = Http.broken w0 /\
  Http.body (ResponseWriter rw) = Http.body w0.

Definition sampleRequest : Request.t :=
  Request.mk "GET" "/boom" ∅ "00000000003e8000".

End Recovery.

(** A reading of plain decimal numerals (digits with at most one point),
    as [strconv.ParseFloat] reads them; it serves to run [acceptsGzip] on
    examples. *)
Module Decimal.

Definition digit (c : ascii) : option Z :=
  let n := Z.of_nat (nat_of_ascii c) in
  if ((48 <=? n) && (n <=? 57))%Z then Some (n - 48)%Z else None.

(** Mantissa, number of digits after the point, digits seen at all. *)
Fixpoint scan (s : string) (mant : Z) (frac : option Z) (seen : bool)
  : option (Z * Z) :=
  match s with
  | EmptyString => if seen then Some (mant, default 0%Z frac) else None
  | String c s' =>
      if Ascii.eqb c "." then
        match frac with
        | Some _ => None
        | None => scan s' mant (Some 0%Z) seen
        end
      else
        match digit c with
        | Some d => scan s' (10 * mant + d)%Z ((fun k => k + 1)%Z <$> frac) true
        | None => None
        end
  end.

Definition parse (s : string) : option float :=
  '(mant, frac) ← scan s 0%Z None false;
  Some (PrimFloat.of_uint63 (Uint63.of_Z mant) /
        PrimFloat.of_uint63 (Uint63.of_Z (10 ^ frac)))%float.

End Decimal.

(** ** compress.go: the buffering gzip writer *)

Module Compress.
Local Open Scope Z_scope.

Definition minCompressSize : Z := 256.

Definition compressedContentTypeList : list string :=
  ["application/gzip"; "application/zip"; "application/x-gzip";
   "application/x-compressed"; "application/x-bzip2"; "application/x-xz";
   "application/zstd"; "image/png"; "image/jpeg"; "image/gif"; "image/webp";
   "audio/mpeg"; "audio/ogg"; "video/mp4"; "video/webm";
   "application/octet-stream"; "application/x-tar";
   "application/x-rar-compressed"; "application/x-7z-compressed";
   "application/vnd.rar"; "application/java-archive"; "application/wasm";
   "font/woff"; "font/woff2"; "application/font-woff";
   "application/x-font-woff"; "application/pdf";
   "application/x-shockwave-flash"]%string.

(** The lookup [compressedContentTypes[baseType]]: [false] off the map. *)
Definition compressedContentTypes (baseType : string) : bool :=
  bool_decide (baseType ∈ compressedContentTypeList).

(** What the middleware takes from [compress/gzip]: a writer with a state,
    whose [Write], [Flush] and [Close] hand bytes to the destination it was
    [Reset] to, and the decoder of the format. *)
Class Gzip := {
  GzState : Type;
  gzReset : GzState;
  gzWrite : GzState -> list byte -> GzState * list byte;
  gzFlush : GzState -> GzState * list byte;
  gzClose : GzState -> list byte;
  gunzip : list byte -> option (list byte)
}.

(** [http.DetectContentType] *)
Class ContentSniffer := {
  DetectContentType : list byte -> string
}.

(** [strconv.ParseFloat(s, 64)]; [None] when it returns an error. *)
Class FloatParser := {
  ParseFloat : string -> option float
}.

Inductive gzCall := GzWrite (b : list byte) | GzFlush.

(** The state and the bytes emitted so far after a series of calls. *)
Definition gzRun `{Gzip} (calls : list gzCall) : GzState * list byte :=
  fold_left
    (fun '(g, out) c =>
       match c with
       | GzWrite b => let '(g', o) := gzWrite g b in (g', out ++ o)
       | GzFlush => let '(g', o) := gzFlush g in (g', out ++ o)
       end)
    calls (gzReset, []).

Definition gzInput (calls : list gzCall) : list byte :=
  concat (omap (fun c => match c with GzWrite b => Some b | GzFlush => None end)
            calls).


Section Middleware.

Context `{Gzip} `{ContentSniffer} `{FloatParser}.

Record gzipResponseWriter := mkGzipWriter {
  ResponseWriter : Http.ResponseWriter;
  gw : GzState;
  buf : list byte;
  statusCode : Z;
  decided : bool;
  skipGzip : bool;
  hijacked : bool;
  commitErr : option Http.error
}.

Definition withWriter (w : gzipResponseWriter) (rw : Http.ResponseWriter)
  : gzipResponseWriter :=
  mkGzipWriter rw (gw w) (buf w) (statusCode w) (decided w) (skipGzip w)
    (hijacked w) (commitErr w).

Definition withStatusCode (w : gzipResponseWriter) (code : Z)
  : gzipResponseWriter :=
  mkGzipWriter (ResponseWriter w) (gw w) (buf w) code (decided w)
    (skipGzip w) (hijacked w) (commitErr w).

(** The bytes a call on the gzip writer emits go to the writer it was reset
    to, which is the one the wrapper embeds. *)
Definition emit (w : gzipResponseWriter) (g : GzState) (out : list byte)
  : gzipResponseWriter * option Http.error :=
  let '(rw, err) :=
    match out with
    | [] => (ResponseWriter w, None)
    | _ => Http.Write (ResponseWriter w) out
    end in
  (mkGzipWriter rw g (buf w) (statusCode w) (decided w) (skipGzip w)
     (hijacked w) (commitErr w), err).

Definition gwWrite (w : gzipResponseWriter) (b : list byte)
  : gzipResponseWriter * option Http.error :=
  let '(g, out) := gzWrite (gw w) b in emit w g out.

Definition gwFlush (w : gzipResponseWriter)
  : gzipResponseWriter * option Http.error :=
  let '(g, out) := gzFlush (gw w) in emit w g out.

Definition gwClose (w : gzipResponseWriter)
  : gzipResponseWriter * option Http.error :=
  emit w (gw w) (gzClose (gw w)).

Definition WriteHeader (w : gzipResponseWriter) (code : Z)
  : gzipResponseWriter :=
  if statusCode w =? 0 then withStatusCode w code else w.

(** The content type the decision looks at: the header, or failing it the
    type sniffed from the buffer. *)
Definition contentType (w : gzipResponseWriter) : string :=
  let ct := Http.Get (Http.header (ResponseWriter w)) "Content-Type" in
  if String.eqb ct "" then DetectContentType (buf w) else ct.

Definition baseTypeOf (ct : string) : string :=
  let '(baseType, _, _) := Strings.Cut ct ";" in Strings.TrimSpace baseType.

Definition shouldSkipGzip (w : gzipResponseWriter) : bool :=
  let baseType := baseTypeOf (contentType w) in
  if compressedContentTypes baseType then true
  else if Z.of_nat (length (buf w)) <? minCompressSize then true
  else if negb (String.eqb
                  (Http.Get (Http.header (ResponseWriter w))
                     "Content-Encoding") "")
  then true
  else if (statusCode w =? Http.StatusNoContent) ||
          (statusCode w =? Http.StatusNotModified) then true
  else if statusCode w =? Http.StatusPartialContent then true
  else if statusCode w <? Http.StatusOK then true
  else false.

Definition commit (w : gzipResponseWriter) : gzipResponseWriter :=
  if decided w then w
  else
    let skip := shouldSkipGzip w in
    let code := if statusCode w =? 0 then Http.StatusOK else statusCode w in
    let h := Http.header (ResponseWriter w) in
    let h :=
      if negb skip then
        let h :=
          if String.eqb (Http.Get h "Content-Type") ""
          then Http.Set_ h "Content-Type" (DetectContentType (buf w))
          else h in
        let h := Http.Set_ h "Content-Encoding" "gzip" in
        Http.Del h "Content-Length"
      else h in
    let rw := Http.WriteHeader (Http.withHeader (ResponseWriter w) h) code in
    let w' := mkGzipWriter rw (gw w) (buf w) code true skip (hijacked w)
                (commitErr w) in
    match buf w with
    | [] => w'
    | _ =>
        let '(w'', err) :=
          if skip then
            let '(rw', err) := Http.Write rw (buf w) in
            (withWriter w' rw', err)
          else gwWrite w' (buf w) in
        mkGzipWriter (ResponseWriter w'') (gw w'') [] code true skip
          (hijacked w) err
    end.

Definition Write (w : gzipResponseWriter) (b : list byte)
  : gzipResponseWriter * option Http.error :=
  match commitErr w with
  | Some e => (w, Some e)
  | None =>
      let w := if statusCode w =? 0 then withStatusCode w Http.StatusOK
               else w in
      if decided w then
        if skipGzip w then
          let '(rw, err) := Http.Write (ResponseWriter w) b in
          (withWriter w rw, err)
        else gwWrite w b
      else
        let w := mkGzipWriter (ResponseWriter w) (gw w) (buf w ++ b)
                   (statusCode w) (decided w) (skipGzip w) (hijacked w)
                   (commitErr w) in
        if Z.of_nat (length (buf w)) >=? minCompressSize then
          let w := commit w in (w, commitErr w)
        else (w, None)
  end.

Definition Flush (w : gzipResponseWriter) : gzipResponseWriter :=
  let w := commit w in
  let w := if negb (skipGzip w) then (gwFlush w).1 else w in
  withWriter w (Http.Flush (ResponseWriter w)).1.

Definition Hijack (w : gzipResponseWriter)
  : gzipResponseWriter * option Http.error :=
  let '(rw, err) := Http.Hijack (ResponseWriter w) in
  (mkGzipWriter rw (gw w) (buf w) (statusCode w) (decided w) (skipGzip w)
     (if err is None then true else hijacked w) (commitErr w), err).

Definition Unwrap (w : gzipResponseWriter) : Http.ResponseWriter :=
  ResponseWriter w.

Definition close (w : gzipResponseWriter) : gzipResponseWriter :=
  if hijacked w then w
  else
    let w := commit w in
    if negb (skipGzip w) then (gwClose w).1 else w.

#[global] Instance gzipWriterWriter : Handler.Writer gzipResponseWriter := {
  getHeader := fun w => Http.header (ResponseWriter w);
  putHeader := fun w h => withWriter w (Http.withHeader (ResponseWriter w) h);
  writeHeader := WriteHeader;
  write := Write;
  flush := Flush;
  hijack := Hijack
}.

(** One parameter of a gzip entry: is it a [q] whose value parses to
    zero? *)
Definition zeroQuality (param : string) : bool :=
  let param := Strings.TrimSpace param in
  let '(key, val, _) := Strings.Cut param "=" in
  if Strings.EqualFold (Strings.TrimSpace key) "q" then
    match ParseFloat (Strings.TrimSpace val) with
    | Some qval => PrimFloat.eqb qval 0%float
    | None => false
    end
  else false.

(** The encoding token and the parameters of one part of the header. *)
Definition entry (part : string) : string * string :=
  let part := Strings.TrimSpace part in
  let '(encoding, params, _) := Strings.Cut part ";" in
  (Strings.TrimSpace encoding, params).

Definition namesGzip (part : string) : bool :=
  Strings.EqualFold (entry part).1 "gzip".

(** The loop of [acceptsGzip] over the parts it has not seen yet. *)
Fixpoint acceptsGzipFrom (parts : list string) : bool :=
  match parts with
  | [] => false
  | part :: rest =>
      let '(encoding, params) := entry part in
      if negb (Strings.EqualFold encoding "gzip") then acceptsGzipFrom rest
      else if String.eqb params "" then true
      else negb (existsb zeroQuality (Strings.SplitSeq params ";"))
  end.

Definition acceptsGzip (header : string) : bool :=
  acceptsGzipFrom (Strings.SplitSeq header ",").

Definition newGzipWriter (w : Http.ResponseWriter) : gzipResponseWriter :=
  mkGzipWriter w gzReset [] 0 false false false None.

(** The wrapper as the deferred function leaves it. *)
Definition finish (grw : gzipResponseWriter) (e : Handler.ending)
  : gzipResponseWriter :=
  match e with
  | Handler.Panic _ =>
      if decided grw && negb (skipGzip grw) && negb (hijacked grw)
      then (gwClose grw).1 else grw
  | Handler.Return => close grw
  end.

(** The wrapper at the end of a request accepted for compression. *)
Definition compressed (next : Handler.t) (w : Http.ResponseWriter)
  : gzipResponseWriter :=
  finish (Handler.run (Handler.ops next) (newGzipWriter w))
    (Handler.end_ next).


(** The conditions under which the decision is to skip. *)
Definition skipCondition (w : gzipResponseWriter) : Prop :=
  compressedContentTypes (baseTypeOf (contentType w)) = true
  \/ Z.of_nat (length (buf w)) < minCompressSize
  \/ Http.Get (Http.header (ResponseWriter w)) "Content-Encoding"
     ≠ EmptyString
  \/ statusCode w = Http.StatusNoContent
  \/ statusCode w = Http.StatusNotModified
  \/ statusCode w = Http.StatusPartialContent
  \/ 100 <= statusCode w <= 199.

Definition sinkOK (rw : Http.ResponseWriter) : Prop :=
  Http.hijacked rw = false /\ Http.broken rw = false.


(** [tracks b0 done w]: the transport held [b0] when the wrapper was made,
    the handler has written [done] since, and the wrapper has lost
    nothing. *)
Definition tracks (b0 done : list byte) (w : gzipResponseWriter) : Prop :=
  commitErr w = None /\ hijacked w = false /\ sinkOK (ResponseWriter w) /\
  if decided w then
    buf w = [] /\
    if skipGzip w then Http.body (ResponseWriter w) = b0 ++ done
    else exists calls,
           (gzRun calls).1 = gw w /\
           Http.body (ResponseWriter w) = b0 ++ (gzRun calls).2 /\
           gzInput calls = done
  else
    buf w = done /\ Http.body (ResponseWriter w) = b0 /\ gw w = gzReset.

End Middleware.

#[global] Instance storedGzip : Gzip := {
  GzState := unit;
  gzReset := tt;
  gzWrite := fun _ b => (tt, b);
  gzFlush := fun _ => (tt, []);
  gzClose := fun _ => [];
  gunzip := fun b => Some b
}.

#[global] Instance textSniffer : ContentSniffer := {
  DetectContentType := fun _ => "text/plain; charset=utf-8"%string
}.

#[global] Instance decimalParser : FloatParser := {
  ParseFloat := Decimal.parse
}.



Definition chunk : list byte := repeat "a"%byte 200.


Definition smallBuffer : gzipResponseWriter :=
  mkGzipWriter Http.newRecorder gzReset (list_byte_of_string "hi")
    Http.StatusOK false false false None.

End Compress.

(** ** Kinds of calls *)

Module Calls.

Definition isHijack (o : Handler.op) : bool :=
  match o with Handler.Hijack => true | _ => false end.

(** A [WriteHeader] with a status that is not informational. *)
Definition finalWriteHeader (o : Handler.op) : Prop :=
  match o with
  | Handler.WriteHeader code => Http.isInformational code = false
  | _ => True
  end.

End Calls.

(** ** request_id.go: the RequestID middleware *)

Module RequestID.
Import Int Snowflake.
Local Open Scope Z_scope.

(** The canonical form of the header name the source writes as
    [X-Request-ID]: [Header.Get] and [Header.Set] canonicalise their key. *)
Definition RequestIDHeader : string := "X-Request-Id".

Definition maxRequestIDLength : Z := 256.

Definition GetRequestID (r : Request.t) : string := Request.ContextRequestID r.

Fixpoint isPrintableASCII (s : string) : bool :=
  match s with
  | EmptyString => true
  | String c s' =>
      let n := Z.of_N (N_of_ascii c) in
      if (n <? 32) || (n >? 126) then false else isPrintableASCII s'
  end.

(** The test of the handler on the incoming header value. *)
Definition mustGenerate (id : string) : bool :=
  String.eqb id "" || (Z.of_nat (String.length id) >? maxRequestIDLength)
  || negb (isPrintableASCII id).

Record Served := mkServed {
  request : Request.t;
  writer : Http.ResponseWriter;
  generator : snowflakeGenerator;
  clock : Clock;
  logs : list Slog.Record_
}.

(** The handler [RequestID] returns, up to its call of [next.ServeHTTP] on
    the request and the writer of the result; [None] while [generate] waits
    for the clock. *)
Definition serve (g : snowflakeGenerator) (clock : Clock) (r : Request.t)
    (w : Http.ResponseWriter) : option Served :=
  let id := Http.Get (Request.Header r) RequestIDHeader in
  '(id, g, clock, logs) ←
    (if mustGenerate id then generate g clock else Some (id, g, clock, []));
  let r :=
    Request.mk (Request.Method r) (Request.Path r)
      (Http.Set_ (Request.Header r) RequestIDHeader id) id in
  let w := Http.withHeader w (Http.Set_ (Http.header w) RequestIDHeader id) in
  Some (mkServed r w g clock logs).

(** [hex.DecodeString] and [binary.BigEndian.Uint64], as the test helper
    [decodeSnowflakeID] reads an identifier back. *)
Definition fromHexChar (c : ascii) : option Z :=
  let n := Z.of_N (N_of_ascii c) in
  if (48 <=? n) && (n <=? 57) then Some (n - 48)
  else if (97 <=? n) && (n <=? 102) then Some (n - 97 + 10)
  else if (65 <=? n) && (n <=? 70) then Some (n - 65 + 10)
  else None.

Fixpoint hexValue (s : string) (acc : Z) : option Z :=
  match s with
  | EmptyString => Some acc
  | String c s' => d ← fromHexChar c; hexValue s' (acc * 16 + d)
  end.

(** Timestamp, machine and sequence fields of an identifier of 16
    hexadecimal characters. *)
Definition decodeSnowflakeID (id : string) : option (Z * Z * Z) :=
  if (String.length id =? 16)%nat then
    val ← hexValue id 0;
    Some (wrapI64 (decodeTimestamp val), decodeMachine val, decodeSequence val)
  else None.

Definition isLowerHex (c : ascii) : bool :=
  let n := Z.of_N (N_of_ascii c) in
  ((48 <=? n) && (n <=? 57)) || ((97 <=? n) && (n <=? 102)).

Definition requestWithID (id : string) : Request.t :=
  Request.mk "GET" "/" (<[RequestIDHeader := [id]]> ∅) "".

End RequestID.

(** ** ratelimit.go: a series of requests *)

Module RateLimitSeries.
Import RateLimit.



End RateLimitSeries.

(** ** cors.go: the cases of the handler *)

Module CorsCases.
Import Cors.

Section Handler.

Variable urlHostname : string -> option string.

(** The request carries an Origin that the handler answers: its hostname is
    one of the allowed ones, or the wildcard is active. *)
Definition answered (m : middleware) (r : Request.t) : bool :=
  let origin := Http.Get (Request.Header r) "Origin" in
  negb (String.eqb origin "") &&
  (bool_decide (Strings.ToLower (extractHostname urlHostname origin)
                ∈ allowedHostnames m)
   || wildcard m).

End Handler.

(** The condition under which the handler treats a request as a preflight. *)
Definition preflight (r : Request.t) : bool :=
  String.eqb (Request.Method r) MethodOptions &&
  negb (String.eqb
          (Http.Get (Request.Header r) "Access-Control-Request-Method") "").

(** The names of the headers the handler writes. *)
Definition corsHeaderNames : list string :=
  ["Vary"; "Access-Control-Allow-Origin"; "Access-Control-Allow-Credentials";
   "Access-Control-Expose-Headers"; "Access-Control-Allow-Methods";
   "Access-Control-Allow-Headers"; "Access-Control-Max-Age"]%string.

(** The wildcard entry is configured and passes the validators. *)
Definition wildcardConfigured (cfg : corsConfig) : Prop :=
  "*"%string ∈ allowedOrigins cfg /\
  (validateOrigin "*" (validateOrigins cfg)).1 = true.

End CorsCases.

(** ** recovery.go: the calls that count as a response *)

Module RecoveryCases.
Local Open Scope Z_scope.

(** The calls after which [recoveryWriter] holds the response for begun,
    on a transport like [w]: a status line that is final or switches
    protocols, any write, a flush or a hijack that the transport
    supports. *)
Definition commits (w : Http.ResponseWriter) (o : Handler.op) : bool :=
  match o with
  | Handler.WriteHeader code =>
      (code =? Http.StatusSwitchingProtocols) || (code >=? Http.StatusOK)
  | Handler.Write _ => true
  | Handler.Flush => Http.canFlush w
  | Handler.Hijack => Http.canHijack w
  | _ => false
  end.

End RecoveryCases.

(** ** logging.go *)

Module Logging.
Import Calls.
Local Open Scope Z_scope.

Record statusWriter := mkStatusWriter {
  ResponseWriter : Http.ResponseWriter;
  status : Z;
  written : bool;
  hijacked : bool
}.

Definition WriteHeader (w : statusWriter) (code : Z) : statusWriter :=
  if negb (written w) then
    mkStatusWriter (Http.WriteHeader (ResponseWriter w) code) code true
      (hijacked w)
  else w.

Definition Write (w : statusWriter) (b : list byte)
  : statusWriter * option Http.error :=
  let w :=
    if negb (written w)
    then mkStatusWriter (ResponseWriter w) Http.StatusOK true (hijacked w)
    else w in
  let '(rw, err) := Http.Write (ResponseWriter w) b in
  (mkStatusWriter rw (status w) (written w) (hijacked w), err).

Definition Hijack (w : statusWriter) : statusWriter * option Http.error :=
  let '(rw, err) := Http.Hijack (ResponseWriter w) in
  (mkStatusWriter rw (status w) (written w)
     (if err is None then true else hijacked w), err).

Definition Flush (w : statusWriter) : statusWriter :=
  let '(rw, err) := Http.Flush (ResponseWriter w) in
  if (if err is None then true else false) && negb (written w)
  then mkStatusWriter rw Http.StatusOK true (hijacked w)
  else mkStatusWriter rw (status w) (written w) (hijacked w).

Definition Unwrap (w : statusWriter) : Http.ResponseWriter :=
  ResponseWriter w.

#[global] Instance statusWriterWriter : Handler.Writer statusWriter := {
  getHeader := fun w => Http.header (ResponseWriter w);
  putHeader := fun w h =>
    mkStatusWriter (Http.withHeader (ResponseWriter w) h) (status w)
      (written w) (hijacked w);
  writeHeader := WriteHeader;
  write := Write;
  flush := Flush;
  hijack := Hijack
}.

Definition StatusBadRequest : Z := 400.

(** The status the record carries. *)
Definition finalStatus (sw : statusWriter) : Z :=
  if status sw =? 0 then
    if hijacked sw then Http.StatusSwitchingProtocols else Http.StatusOK
  else status sw.

Definition requestAttrs (r : Request.t) (code duration : Z)
  : list (string * Slog.Value) :=
  let attrs :=
    [("method"%string, Slog.VString (Request.Method r));
     ("path"%string, Slog.VString (Request.Path r));
     ("status"%string, Slog.VInt code);
     ("duration"%string, Slog.VDuration duration)] in
  if negb (String.eqb (Request.ContextRequestID r) "")
  then attrs ++ [("request_id"%string,
                  Slog.VString (Request.ContextRequestID r))]
  else attrs.

Definition levelOf (code : Z) : Slog.Level :=
  if code >=? Http.StatusInternalServerError then Slog.LevelError
  else if code >=? StatusBadRequest then Slog.LevelWarn
  else Slog.LevelInfo.

(** The handler [Logging] returns, around [next]; [start] and [finish] are
    the readings of the clock before and after the call of [next]. There is
    no deferred function: a panic of [next] goes through and nothing is
    logged. *)
Definition Logging (next : Handler.t) (start finish : Z) (r : Request.t)
    (w : Http.ResponseWriter)
  : Http.ResponseWriter * Handler.ending * list Slog.Record_ :=
  let sw := Handler.run (Handler.ops next) (mkStatusWriter w 0 false false) in
  match Handler.end_ next with
  | Handler.Panic v => (ResponseWriter sw, Handler.Panic v, [])
  | Handler.Return =>
      let code := finalStatus sw in
      let duration := RateLimit.Sub finish start in
      (ResponseWriter sw, Handler.Return,
       [Slog.mkRecord (levelOf code) "http request"
          (requestAttrs r code duration)])
  end.

(** The status that the first call to settle it gives the wrapper, on a
    transport like [w]: the code of a [WriteHeader], 200 for a write or a
    flush that the transport supports. *)
Fixpoint firstStatus (w : Http.ResponseWriter) (ops : list Handler.op)
  : option Z :=
  match ops with
  | [] => None
  | Handler.WriteHeader code :: _ => Some code
  | Handler.Write _ :: _ => Some Http.StatusOK
  | Handler.Flush :: rest =>
      if Http.canFlush w then Some Http.StatusOK else firstStatus w rest
  | _ :: rest => firstStatus w rest
  end.

End Logging.

(** ** compress.go: the state of the wrapper along the calls of a handler *)

Module CompressCases.
Import Compress.
Local Open Scope Z_scope.

(** The status the wrapper holds after the calls [ops]: the code of the
    first [WriteHeader], or 200 if a write or a flush comes before any. *)
Fixpoint firstCode (ops : list Handler.op) : option Z :=
  match ops with
  | [] => None
  | Handler.WriteHeader code :: _ => Some code
  | Handler.Write _ :: _ => Some Http.StatusOK
  | Handler.Flush :: _ => Some Http.StatusOK
  | _ :: rest => firstCode rest
  end.

Section Middleware.

Context `{Gzip} `{ContentSniffer}.


(** [buffering w0 done w]: the wrapper was made around [w0] and the
    handler has made the calls [done]. Until the decision nothing but
    headers reaches the transport and the buffer holds what was written; a
    decision to compress is taken on 256 bytes at least. *)
Definition buffering (w0 : Http.ResponseWriter) (done : list Handler.op)
    (w : gzipResponseWriter) : Prop :=
  if decided w then
    skipGzip w = false ->
    minCompressSize <= Z.of_nat (length (Handler.written done))
  else
    Http.status (ResponseWriter w) = Http.status w0 /\
    Http.body (ResponseWriter w) = Http.body w0 /\
    buf w = Handler.written done /\ commitErr w = None.

(** [settled done w]: the wrapper holds the status of the calls [done],
    and the transport has been sent it if the decision is taken. *)
Definition settled (done : list Handler.op) (w : gzipResponseWriter) : Prop :=
  match firstCode done with
  | None => statusCode w = 0
  | Some code =>
      statusCode w = code /\ 100 <= code /\ Http.isInformational code = false
  end /\
  if decided w then Http.status (ResponseWriter w) = Some (statusCode w)
  else Http.status (ResponseWriter w) = None.

End Middleware.


(** A handler that sets a status, writes a few bytes and panics. *)
Definition smallThenPanic : Handler.t :=
  Handler.mk [Handler.WriteHeader 201;
              Handler.Write (list_byte_of_string "partial")]
    (Handler.Panic (Handler.NonError "boom")).

Definition created : Handler.t :=
  Handler.mk [Handler.SetHeader "Location" "/items/1";
              Handler.WriteHeader 201; Handler.Write chunk;
              Handler.WriteHeader 500; Handler.Write chunk]
    Handler.Return.

End CompressCases.


(** * Properties *)

Module SnowflakeFacts.
Import Int Snowflake.
Local Open Scope Z_scope.

Lemma wrapU64_small x : 0 <= x < 2 ^ 64 -> wrapU64 x = x.
Proof. intros H. unfold wrapU64. now apply Z.mod_small. Qed.

Lemma wrapI64_small x : - 2 ^ 63 <= x < 2 ^ 63 -> wrapI64 x = x.
Proof. intros H. unfold wrapI64. rewrite Z.mod_small; lia. Qed.

Lemma wrapI64_range x : - 2 ^ 63 <= wrapI64 x < 2 ^ 63.
Proof.
  unfold wrapI64.
  pose proof (Z.mod_pos_bound (x + 2 ^ 63) (2 ^ 64) ltac:(lia)). lia.
Qed.

(** Fields that do not overlap are added by [Z.lor]. *)
Lemma lor_shifted_field a b k :
  0 <= k -> 0 <= a -> 0 <= b < 2 ^ k ->
  Z.lor (a * 2 ^ k) b = a * 2 ^ k + b.
Proof.
  intros Hk Ha Hb.
  assert (Hdisj : Z.land (a * 2 ^ k) b = 0).
  { apply Z.bits_inj'; intros n Hn. rewrite Z.land_spec, Z.bits_0.
    destruct (Z.lt_ge_cases n k) as [Hlt | Hge].
    - rewrite Z.mul_pow2_bits_low by lia. reflexivity.
    - destruct (Z.eq_dec b 0) as [-> | Hb0].
      + rewrite Z.bits_0. apply andb_false_r.
      + rewrite (Z.bits_above_log2 b n); [apply andb_false_r | lia |].
        apply Z.log2_lt_pow2; [lia |].
        pose proof (Z.pow_le_mono_r 2 k n ltac:(lia) Hge). lia. }
  rewrite <- Z.lxor_lor, <- Z.add_nocarry_lxor; trivial.
Qed.

Lemma composeID_sum now mid seq :
  0 <= now < 2 ^ 41 -> 0 <= mid < 2 ^ 16 -> 0 <= seq < 2 ^ 7 ->
  composeID now mid seq = now * 2 ^ 23 + mid * 2 ^ 7 + seq.
Proof.
  intros Hn Hm Hs. unfold composeID.
  rewrite Z.max_l by lia.
  unfold snowflakeTimestampShift, snowflakeMachineShift,
    snowflakeSequenceBits, snowflakeMachineBits.
  rewrite !Z.shiftl_mul_pow2 by lia.
  rewrite (wrapU64_small now) by lia.
  rewrite (wrapU64_small (now * 2 ^ (7 + 16))) by lia.
  rewrite (wrapU64_small (mid * 2 ^ 7)) by lia.
  change (7 + 16) with 23.
  rewrite (lor_shifted_field now (mid * 2 ^ 7) 23) by lia.
  replace (now * 2 ^ 23 + mid * 2 ^ 7)
    with ((now * 2 ^ 16 + mid) * 2 ^ 7) by lia.
  rewrite lor_shifted_field by lia. reflexivity.
Qed.

Lemma spinWhile_exit cond now clock now' clock' :
  spinWhile cond now clock = Some (now', clock') -> cond now' = false.
Proof.
  revert now. induction clock as [| t clock IH]; intros now; simpl.
  - destruct (cond now) eqn:E; [discriminate |].
    intros [= <- <-]. exact E.
  - destruct (cond now) eqn:E.
    + apply IH.
    + intros [= <- <-]. exact E.
Qed.

Lemma spinWhile_skip cond now behind clock :
  cond now = true ->
  Forall (fun t => cond (sinceEpoch t) = true) behind ->
  spinWhile cond now (behind ++ clock) =
  match clock with
  | [] => None
  | u :: rest => spinWhile cond (sinceEpoch u) rest
  end.
Proof.
  intros Hnow Hall. revert now Hnow.
  induction Hall as [| t behind Ht _ IH]; intros now Hnow.
  - destruct clock; simpl; rewrite Hnow; reflexivity.
  - simpl. rewrite Hnow. apply IH, Ht.
Qed.

Lemma spinWhile_done cond now clock :
  cond now = false -> spinWhile cond now clock = Some (now, clock).
Proof. intros H. destruct clock; simpl; rewrite H; reflexivity. Qed.

Lemma newSnowflakeGenerator_wf hostname :
  wf (newSnowflakeGenerator hostname).1.
Proof.
  unfold newSnowflakeGenerator, wf.
  destruct hostname as [h |]; simpl; (split; [lia | split; [lia |]]).
  all: change snowflakeMachineMask with (Z.ones 16);
    rewrite Z.land_ones by lia; apply Z.mod_pos_bound; lia.
Qed.

(** One call moves the pair (timestamp, sequence) strictly upward in the
    lexicographic order, and the value returned is the sum of its fields. *)
Lemma generateID_step g clock r :
  wf g -> generateID g clock = Some r ->
  lastTimestamp (gen_state r) < 2 ^ 41 ->
  wf (gen_state r) /\
  (lastTimestamp g < lastTimestamp (gen_state r) \/
   lastTimestamp g = lastTimestamp (gen_state r) /\
   sequence g < sequence (gen_state r)) /\
  gen_id r =
    lastTimestamp (gen_state r) * 2 ^ 23 + machineID g * 2 ^ 7 +
    sequence (gen_state r).
Proof.
  intros (Hl & Hs & Hm) Hgen Hbound.
  unfold generateID in Hgen.
  destruct clock as [| t clock]; [discriminate |]. simpl in Hgen.
  set (now := sinceEpoch t) in *.
  destruct (clockBackward g now clock)
    as [[[[now1 seq1] clock2] logs] |] eqn:Hcb; [| discriminate].
  assert (Hback : lastTimestamp g <= now1 /\
    (seq1 = sequence g \/ seq1 = 0 /\ lastTimestamp g < now1)).
  { unfold clockBackward in Hcb.
    destruct (Z.ltb_spec now (lastTimestamp g)) as [Hlt | Hge].
    - destruct (_ >? _).
      + rewrite wrapI64_small in Hcb by lia. injection Hcb as <- <- <- <-.
        split; [lia | right; lia].
      + destruct (spinWhile _ now clock) as [[now' clock'] |] eqn:Hspin;
          [| discriminate].
        apply spinWhile_exit in Hspin. apply Z.ltb_ge in Hspin.
        simpl in Hcb. injection Hcb as <- <- <- <-. split; [lia | now left].
    - injection Hcb as <- <- <- <-. split; [lia | now left]. }
  destruct Hback as (Hge1 & Hseq1).
  simpl in Hgen.
  unfold nextSequence in Hgen.
  destruct (Z.eqb_spec now1 (lastTimestamp g)) as [Heq | Hne].
  - assert (seq1 = sequence g) as -> by (destruct Hseq1; lia).
    rewrite wrapU64_small in Hgen by lia.
    unfold snowflakeMaxSequence, snowflakeSequenceBits in Hgen.
    change (Z.shiftl 1 7 - 1) with 127 in Hgen.
    destruct (Z.gtb_spec (sequence g + 1) 127) as [Hov | Hok].
    + destruct (spinWhile _ now1 clock2) as [[now' clock'] |] eqn:Hspin;
        [| discriminate].
      apply spinWhile_exit in Hspin. apply Z.leb_gt in Hspin.
      simpl in Hgen. injection Hgen as <-. simpl in *.
      split; [unfold wf; simpl; lia |]. split; [lia |].
      rewrite composeID_sum by lia. reflexivity.
    + injection Hgen as <-. simpl in *.
      split; [unfold wf; simpl; lia |]. split; [lia |].
      rewrite composeID_sum by lia. reflexivity.
  - injection Hgen as <-. simpl in *.
    split; [unfold wf; simpl; lia |]. split; [lia |].
    rewrite composeID_sum by lia. reflexivity.
Qed.

Lemma generateID_key g clock r :
  wf g -> generateID g clock = Some r ->
  lastTimestamp (gen_state r) < 2 ^ 41 ->
  wf (gen_state r) /\ key g < gen_id r /\ gen_id r = key (gen_state r).
Proof.
  intros Hwf Hgen Hb.
  destruct (generateID_step g clock r Hwf Hgen Hb) as (Hwf' & Hlex & Hid).
  assert (Hmid : machineID (gen_state r) = machineID g).
  { unfold generateID in Hgen.
    destruct (currentTimestampMs clock) as [[? ?] |]; [| discriminate].
    simpl in Hgen.
    destruct (clockBackward g _ _) as [[[[? ?] ?] ?] |]; [| discriminate].
    simpl in Hgen.
    destruct (nextSequence g _ _ _) as [[[? ?] ?] |]; [| discriminate].
    injection Hgen as <-. reflexivity. }
  split; [exact Hwf' |]. unfold key. rewrite Hmid.
  destruct Hwf as (? & ? & ?), Hwf' as (? & ? & ?). split; lia.
Qed.

Lemma generateN_increasing n : forall g clock rs,
  wf g -> generateN n g clock = Some rs ->
  Forall (fun r => lastTimestamp (gen_state r) < 2 ^ 41) rs ->
  Forall (fun r => key g < gen_id r) rs /\
  StronglySorted Z.lt (map gen_id rs).
Proof.
  induction n as [| n IH]; intros g clock rs Hwf Hrun Hb; simpl in Hrun.
  - injection Hrun as <-. split; constructor.
  - destruct (generateID g clock) as [r |] eqn:Hgen; [| discriminate].
    simpl in Hrun.
    destruct (generateN n _ _) as [rs' |] eqn:Hrest; [| discriminate].
    injection Hrun as <-.
    apply Forall_cons in Hb as [Hb1 Hb].
    destruct (generateID_key g clock r Hwf Hgen Hb1) as (Hwf' & Hlt & Hid).
    destruct (IH _ _ _ Hwf' Hrest Hb) as [Hall Hsorted].
    rewrite <- Hid in Hall.
    split.
    + constructor; [exact Hlt |].
      eapply Forall_impl; [exact Hall |]. simpl. intros; lia.
    + simpl. constructor; [exact Hsorted |].
      apply Forall_fmap. eapply Forall_impl; [exact Hall |]. simpl. auto.
Qed.

Lemma StronglySorted_lt_NoDup (l : list Z) : StronglySorted Z.lt l -> NoDup l.
Proof.
  induction 1 as [| x l _ IH Hall]; constructor; [| exact IH].
  intros Hin. rewrite Forall_forall in Hall. specialize (Hall x Hin). lia.
Qed.

Lemma StronglySorted_lt_shiftr (l : list Z) k :
  0 <= k -> StronglySorted Z.lt l ->
  StronglySorted Z.le (map (fun x => Z.shiftr x k) l).
Proof.
  intros Hk. induction 1 as [| x l _ IH Hall]; simpl; constructor; [exact IH |].
  apply Forall_fmap. eapply Forall_impl; [exact Hall |]. simpl.
  intros y Hxy. rewrite !Z.shiftr_div_pow2 by lia.
  apply Z.div_le_mono; [apply Z.pow_pos_nonneg |]; lia.
Qed.

(** C2, as amended: while the timestamps a generator records fit the 41-bit
    field of the identifier, the values returned by any number of calls on
    it are pairwise distinct and their timestamp components never
    decrease, whatever the clock does (backward moves included). *)
Theorem snowflake_ids_distinct_and_monotonic hostname n clock rs :
  generateN n (newSnowflakeGenerator hostname).1 clock = Some rs ->
  Forall (fun r => lastTimestamp (gen_state r) < 2 ^ 41) rs ->
  NoDup (map gen_id rs) /\
  StronglySorted Z.le (map (fun r => decodeTimestamp (gen_id r)) rs).
Proof.
  intros Hrun Hb.
  destruct (generateN_increasing n _ clock rs
              (newSnowflakeGenerator_wf hostname) Hrun Hb) as [_ Hs].
  split; [apply StronglySorted_lt_NoDup, Hs |].
  apply (StronglySorted_lt_shiftr _ snowflakeTimestampShift) in Hs;
    [| unfold snowflakeTimestampShift, snowflakeSequenceBits,
         snowflakeMachineBits; lia].
  rewrite map_map in Hs. exact Hs.
Qed.

Lemma snowflake_ids_distinct_and_monotonic_witness :
  exists rs,
    generateN 5 (newSnowflakeGenerator (Some "host"%string)).1 sampleClock
      = Some rs /\
    NoDup (map gen_id rs) /\
    StronglySorted Z.le (map (fun r => decodeTimestamp (gen_id r)) rs).
Proof.
  eexists. split; [vm_compute; reflexivity |].
  apply (snowflake_ids_distinct_and_monotonic (Some "host"%string) 5 sampleClock).
  - vm_compute. reflexivity.
  - repeat constructor.
Defined.

(** C2 as stated fails once the clock passes 2^41 ms after the epoch: the
    timestamp is shifted out of the 64-bit value. *)
Lemma snowflake_duplicate_past_41_bits :
  exists rs,
    generateN 2 (newSnowflakeGenerator (Some "host"%string)).1
      [snowflakeEpochMs + 5; snowflakeEpochMs + 2 ^ 41 + 5] = Some rs /\
    ~ NoDup (map gen_id rs).
Proof.
  eexists. split; [vm_compute; reflexivity |].
  intros Hnd. apply NoDup_cons in Hnd as [Hnotin _].
  apply Hnotin. simpl. left.
Qed.

(** Progress: a call returns as soon as the clock shows a reading past the
    last timestamp. *)
Lemma spinWhile_returns (P : Z -> Prop) cond :
  (forall n, P n -> cond n = false) ->
  forall clock now,
  P now \/ Exists (fun u => P (sinceEpoch u)) clock ->
  exists now' clock',
    spinWhile cond now clock = Some (now', clock') /\
    (P now' \/ Exists (fun u => P (sinceEpoch u)) clock').
Proof.
  intros HP. induction clock as [| u clock IH]; intros now Hadv.
  - destruct Hadv as [Hnow | Hex]; [| inversion Hex].
    exists now, []. simpl. rewrite (HP _ Hnow). auto.
  - simpl. destruct (cond now) eqn:Hc.
    + apply IH. destruct Hadv as [Hnow | Hex].
      * rewrite (HP _ Hnow) in Hc. discriminate.
      * apply Exists_cons in Hex. exact Hex.
    + eauto.
Qed.

Lemma generateID_returns g t clock :
  lastTimestamp g < sinceEpoch t \/
  Exists (fun u => lastTimestamp g < sinceEpoch u) clock ->
  is_Some (generateID g (t :: clock)).
Proof.
  intros Hadv. unfold generateID. simpl.
  assert (Hfirst : exists now1 seq1 clock2 logs,
    clockBackward g (sinceEpoch t) clock = Some (now1, seq1, clock2, logs) /\
    (now1 <> lastTimestamp g \/
     Exists (fun u => lastTimestamp g < sinceEpoch u) clock2)).
  { unfold clockBackward.
    destruct (Z.ltb_spec (sinceEpoch t) (lastTimestamp g)) as [Hlt | Hge].
    - destruct (_ >? _) eqn:Hd.
      + do 4 eexists. split; [reflexivity |].
        destruct Hadv as [? | Hex]; [lia | auto].
      + destruct (spinWhile_returns (fun n => lastTimestamp g < n)
                    (fun n => n <? lastTimestamp g)) with (1 := fun n H =>
                    proj2 (Z.ltb_ge n (lastTimestamp g)) (Z.lt_le_incl _ _ H))
                    (clock := clock) (now := sinceEpoch t)
          as (now' & clock' & Hspin & Hadv'); [exact Hadv |].
        rewrite Hspin. simpl. do 4 eexists. split; [reflexivity |].
        destruct Hadv' as [? | ?]; [left; lia | auto].
    - do 4 eexists. split; [reflexivity |].
      destruct Hadv as [? | ?]; [left; lia | auto]. }
  destruct Hfirst as (now1 & seq1 & clock2 & logs & -> & Hadv1). simpl.
  unfold nextSequence.
  destruct (Z.eqb_spec now1 (lastTimestamp g)) as [Heq | Hne]; [| eauto].
  destruct (_ >? _); [| eauto].
  destruct Hadv1 as [? | Hex]; [contradiction |].
  destruct (spinWhile_returns (fun n => lastTimestamp g < n)
              (fun n => n <=? lastTimestamp g)) with (1 := fun n H =>
              proj2 (Z.leb_gt n (lastTimestamp g)) H)
              (clock := clock2) (now := now1)
    as (now' & clock' & Hspin & _); [auto |].
  rewrite Hspin. simpl. eauto.
Qed.

(** C6: a reading behind the last timestamp. Beyond the 500 ms tolerance the
    call returns at once, having read the clock once, with the timestamp
    [last + 1], the sequence 0 and one error record. Within the tolerance
    it logs a warning and reads the clock again until a reading has caught
    up, and goes on from that reading as a call that had read it first;
    while no reading has caught up the call does not return. *)
Theorem generate_clock_backward g t clock :
  sinceEpoch t < lastTimestamp g ->
  - 2 ^ 62 <= sinceEpoch t -> lastTimestamp g < 2 ^ 62 ->
  (maxClockDriftMs < lastTimestamp g - sinceEpoch t ->
   generateID g (t :: clock) =
   Some (mkGenerated
           (composeID (lastTimestamp g + 1) (machineID g) 0)
           (mkGen (machineID g) 0 (lastTimestamp g + 1))
           clock [driftError (lastTimestamp g - sinceEpoch t)]) /\
   Slog.level (driftError (lastTimestamp g - sinceEpoch t)) = Slog.LevelError)
  /\
  (lastTimestamp g - sinceEpoch t <= maxClockDriftMs ->
   (forall behind u rest,
      clock = behind ++ u :: rest ->
      Forall (fun v => sinceEpoch v < lastTimestamp g) behind ->
      lastTimestamp g <= sinceEpoch u ->
      generateID g (t :: clock) =
      withLogs [driftWarning (lastTimestamp g - sinceEpoch t)]
        <$> generateID g (u :: rest)) /\
   (Forall (fun v => sinceEpoch v < lastTimestamp g) clock ->
    generateID g (t :: clock) = None)).
Proof.
  intros Hlt Hlo Hhi.
  set (drift := lastTimestamp g - sinceEpoch t).
  assert (Hdrift : wrapI64 (lastTimestamp g - sinceEpoch t) = drift)
    by (apply wrapI64_small; unfold drift; lia).
  assert (Hcond : (sinceEpoch t <? lastTimestamp g) = true)
    by (apply Z.ltb_lt; exact Hlt).
  split; [intros Hbig; split; [| reflexivity] | intros Hsmall; split].
  - unfold generateID. simpl. unfold clockBackward.
    rewrite Hcond, Hdrift.
    destruct (Z.gtb_spec drift maxClockDriftMs) as [_ | Hle]; [| lia].
    rewrite wrapI64_small by lia. simpl.
    unfold nextSequence.
    destruct (Z.eqb_spec (lastTimestamp g + 1) (lastTimestamp g)); [lia |].
    reflexivity.
  - intros behind u rest -> Hbehind Hu.
    assert (Hspin :
      spinWhile (fun n => n <? lastTimestamp g) (sinceEpoch t)
        (behind ++ u :: rest) = Some (sinceEpoch u, rest)).
    { rewrite spinWhile_skip; [| exact Hcond |].
      - apply spinWhile_done. apply Z.ltb_ge. exact Hu.
      - eapply Forall_impl; [exact Hbehind |]. simpl.
        intros v Hv. apply Z.ltb_lt. exact Hv. }
    unfold generateID. simpl. unfold clockBackward.
    rewrite Hcond, Hdrift.
    destruct (Z.gtb_spec drift maxClockDriftMs) as [Hgt | _]; [lia |].
    rewrite Hspin. simpl.
    destruct (Z.ltb_spec (sinceEpoch u) (lastTimestamp g)) as [Hbad | _];
      [lia |].
    simpl.
    destruct (nextSequence g (sinceEpoch u) (sequence g) rest)
      as [[[now2 seq2] clock3] |]; reflexivity.
  - intros Hbehind.
    unfold generateID. simpl. unfold clockBackward.
    rewrite Hcond, Hdrift.
    destruct (Z.gtb_spec drift maxClockDriftMs) as [Hgt | _]; [lia |].
    rewrite <- (app_nil_r clock).
    rewrite spinWhile_skip; [reflexivity | exact Hcond |].
    eapply Forall_impl; [exact Hbehind |]. simpl.
    intros v Hv. apply Z.ltb_lt. exact Hv.
Qed.

(** A generator whose last timestamp is 1000 ms; the clock reads 400 ms
    (600 ms behind) in the first case and 990 ms (10 ms behind) in the
    second. *)
Lemma generate_clock_backward_witness :
  (generateID (mkGen 7 3 1000) [snowflakeEpochMs + 400; snowflakeEpochMs] =
   Some (mkGenerated (composeID 1001 7 0) (mkGen 7 0 1001)
           [snowflakeEpochMs] [driftError 600])) /\
  (generateID (mkGen 7 3 1000)
     [snowflakeEpochMs + 990; snowflakeEpochMs + 995; snowflakeEpochMs + 1002]
   = withLogs [driftWarning 10]
       <$> generateID (mkGen 7 3 1000) [snowflakeEpochMs + 1002]) /\
  generateID (mkGen 7 3 1000) [snowflakeEpochMs + 990; snowflakeEpochMs + 995]
  = None.
Proof.
  assert (Hlo : forall d, 0 <= d < 1000 ->
            sinceEpoch (snowflakeEpochMs + d) = d).
  { intros d Hd. unfold sinceEpoch.
    replace (snowflakeEpochMs + d - snowflakeEpochMs) with d by lia.
    unfold Int.wrapI64. rewrite Z.mod_small; lia. }
  split; [| split].
  - destruct (generate_clock_backward (mkGen 7 3 1000)
                (snowflakeEpochMs + 400) [snowflakeEpochMs])
      as [Hbig _]; try (rewrite ?Hlo by lia; simpl; lia).
    rewrite Hlo in Hbig by lia. apply Hbig. unfold maxClockDriftMs. simpl. lia.
  - destruct (generate_clock_backward (mkGen 7 3 1000)
                (snowflakeEpochMs + 990)
                [snowflakeEpochMs + 995; snowflakeEpochMs + 1002])
      as [_ Hsmall]; try (rewrite ?Hlo by lia; simpl; lia).
    rewrite Hlo in Hsmall by lia.
    destruct Hsmall as [Hspin _]; [unfold maxClockDriftMs; simpl; lia |].
    apply (Hspin [snowflakeEpochMs + 995] (snowflakeEpochMs + 1002) []).
    + reflexivity.
    + constructor; [rewrite Hlo; simpl; lia | constructor].
    + vm_compute. congruence.
  - destruct (generate_clock_backward (mkGen 7 3 1000)
                (snowflakeEpochMs + 990) [snowflakeEpochMs + 995])
      as [_ Hsmall]; try (rewrite ?Hlo by lia; simpl; lia).
    rewrite Hlo in Hsmall by lia.
    destruct Hsmall as [_ Hblock]; [unfold maxClockDriftMs; simpl; lia |].
    apply Hblock. constructor; [rewrite Hlo; simpl; lia | constructor].
Defined.

End SnowflakeFacts.

Module RateLimitFacts.
Import RateLimit.
Local Open Scope Q_scope.

















(** In binary64 too the deficit time at rate 2000000000/2000000001 is half
    a nanosecond past one second; the conversion to [time.Duration] drops
    the half. *)
Lemma deficitNanos64_sub_nanosecond :
  deficitNanos64 0 (2000000000 / 2000000001) = 1000000000.5%float.
Proof. vm_compute. reflexivity. Qed.


End RateLimitFacts.

Module HttpFacts.
Import Http.

Lemma header_withHeader w h : header (withHeader w h) = h.
Proof. reflexivity. Qed.

Lemma header_WriteHeader w code : header (WriteHeader w code) = header w.
Proof.
  unfold WriteHeader. destruct (status w); [reflexivity |].
  destruct (isInformational code); reflexivity.
Qed.

Lemma header_Write w b : header (Write w b).1 = header w.
Proof.
  unfold Write. destruct (hijacked w); [reflexivity |].
  destruct (broken w); [reflexivity |]. simpl. apply header_WriteHeader.
Qed.

Lemma lookup_Set_ (h : Header) k v k' :
  Set_ h k v !! k' = if decide (k = k') then Some [v] else h !! k'.
Proof. unfold Set_. apply lookup_insert. Qed.

Lemma lookup_Add_ne (h : Header) k v k' : k ≠ k' -> Add h k v !! k' = h !! k'.
Proof. intros Hne. unfold Add. apply lookup_insert_ne, Hne. Qed.

Lemma lookup_Del_ne (h : Header) k k' : k ≠ k' -> Del h k !! k' = h !! k'.
Proof. intros Hne. unfold Del. apply lookup_delete_ne, Hne. Qed.

End HttpFacts.

Module CorsFacts.
Import Cors HttpFacts.



Lemma header_setHeader w k v k' :
  Http.header (setHeader w k v) !! k' =
  if decide (k = k') then Some [v] else Http.header w !! k'.
Proof. unfold setHeader. rewrite header_withHeader. apply lookup_Set_. Qed.

Lemma header_setHeader_eq w k v :
  Http.header (setHeader w k v) !! k = Some [v].
Proof. rewrite header_setHeader. apply decide_True. reflexivity. Qed.

Lemma header_addHeader_ne w k v k' :
  k ≠ k' -> Http.header (addHeader w k v) !! k' = Http.header w !! k'.
Proof.
  intros Hne. unfold addHeader. rewrite header_withHeader.
  apply lookup_Add_ne, Hne.
Qed.

Lemma header_if_setHeader_ne (b : bool) w k v k' :
  k ≠ k' ->
  Http.header (if b then setHeader w k v else w) !! k' = Http.header w !! k'.
Proof.
  intros Hne. destruct b; [| reflexivity].
  rewrite header_setHeader. case_decide; [contradiction | reflexivity].
Qed.

Lemma header_setHeader_ne w k v k' :
  k ≠ k' -> Http.header (setHeader w k v) !! k' = Http.header w !! k'.
Proof. intros Hne. rewrite header_setHeader. apply decide_False, Hne. Qed.

Ltac header_lookup :=
  repeat first
    [ rewrite header_WriteHeader
    | rewrite header_setHeader_ne by discriminate
    | rewrite header_if_setHeader_ne by discriminate
    | rewrite header_addHeader_ne by discriminate ].

Section Handler.

Variable urlHostname : string -> option string.

Lemma serve_no_origin m r w :
  Http.Get (Request.Header r) "Origin" = EmptyString ->
  serve urlHostname m r w = (addHeader w "Vary" "Origin", true).
Proof. intros H. unfold serve. rewrite H. reflexivity. Qed.


Lemma serve_allow_origin m r w :
  Http.Get (Request.Header r) "Origin" ≠ EmptyString ->
  Strings.ToLower
    (extractHostname urlHostname (Http.Get (Request.Header r) "Origin"))
    ∈ allowedHostnames m \/ wildcard m = true ->
  Http.header (serve urlHostname m r w).1 !! "Access-Control-Allow-Origin"%string
  = Some [if wildcard m then "*"%string
          else Http.Get (Request.Header r) "Origin"].
Proof.
  intros Horigin Hmatch. unfold serve.
  destruct (String.eqb_spec (Http.Get (Request.Header r) "Origin") "")
    as [? | _]; [contradiction |].
  assert (Hgo : negb (bool_decide
     (Strings.ToLower
        (extractHostname urlHostname (Http.Get (Request.Header r) "Origin"))
      ∈ allowedHostnames m)) && negb (wildcard m) = false).
  { destruct Hmatch as [Hin | Hw].
    - rewrite bool_decide_eq_true_2 by exact Hin. reflexivity.
    - rewrite Hw. apply andb_false_r. }
  rewrite Hgo.
  destruct (String.eqb (Request.Method r) MethodOptions && _);
    cbn [fst]; header_lookup;
    (destruct (wildcard m); apply header_setHeader_eq).
Qed.

Lemma serve_no_credentials m r w :
  credentials m = false ->
  Http.header (serve urlHostname m r w).1
    !! "Access-Control-Allow-Credentials"%string
  = Http.header w !! "Access-Control-Allow-Credentials"%string.
Proof.
  intros Hc. unfold serve. rewrite Hc.
  destruct (String.eqb _ ""); [cbn [fst]; header_lookup; reflexivity |].
  destruct (negb _ && negb _); [cbn [fst]; header_lookup; reflexivity |].
  destruct (String.eqb (Request.Method r) MethodOptions && _);
    cbn [fst]; header_lookup;
    (destruct (wildcard m); header_lookup; reflexivity).
Qed.


(** C5: credentials requested while the validated origins are the wildcard
    alone. One warning is logged, credentials are switched off and the
    wildcard stays: no response gets Access-Control-Allow-Credentials from
    the middleware and every request with an Origin gets
    Access-Control-Allow-Origin: *. *)
Theorem cors_wildcard_only_disables_credentials opts logs :
  let cfg := applyOptions opts defaultConfig in
  let m := (CORS opts).1 in
  allowCredentials cfg = true ->
  collectOrigins (allowedOrigins cfg) (validateOrigins cfg) ∅ false
    = (∅, true, logs) ->
  (CORS opts).2 = logs ++ [credentialsWarning] /\
  Slog.level credentialsWarning = Slog.LevelWarn /\
  credentials m = false /\ wildcard m = true /\
  forall r w,
    Http.header (serve urlHostname m r w).1
      !! "Access-Control-Allow-Credentials"%string
    = Http.header w !! "Access-Control-Allow-Credentials"%string /\
    (Http.Get (Request.Header r) "Origin" ≠ EmptyString ->
     Http.header (serve urlHostname m r w).1
       !! "Access-Control-Allow-Origin"%string
     = Some ["*"%string]).
Proof.
  intros cfg m Hcred Hcollect.
  assert (Hm : CORS opts =
    (mkMiddleware ∅ true false (maxAge cfg)
       (Strings.Join (allowedMethods cfg) ", ")
       (Strings.Join (allowedHeaders cfg) ", ")
       (Strings.Join (exposedHeaders cfg) ", ")
       (Strconv.Itoa (maxAge cfg)), logs ++ [credentialsWarning])).
  { unfold CORS. fold cfg. rewrite Hcollect, Hcred. reflexivity. }
  subst m. rewrite Hm. cbn [fst snd].
  split; [reflexivity |]. split; [reflexivity |].
  split; [reflexivity |]. split; [reflexivity |].
  intros r w. split.
  - apply serve_no_credentials. reflexivity.
  - intros Horigin.
    rewrite serve_allow_origin; [reflexivity | exact Horigin | now right].
Qed.

(** C10: [CORS()] without options logs nothing and matches every origin by
    the wildcard: a request with a non-empty Origin header gets
    Access-Control-Allow-Origin: *, no credentials header and no exposed
    headers; a preflight is answered 204 with the methods GET, HEAD, POST,
    the headers Origin, Accept, Content-Type, X-Requested-With and a max
    age of 3600 seconds. *)
Theorem cors_defaults r w :
  let m := (CORS []).1 in
  (CORS []).2 = [] /\
  wildcard m = true /\ credentials m = false /\
  methods m = "GET, HEAD, POST"%string /\
  headers m = "Origin, Accept, Content-Type, X-Requested-With"%string /\
  cfgMaxAge m = 3600%Z /\ exposed m = EmptyString /\
  (Http.Get (Request.Header r) "Origin" ≠ EmptyString ->
   let w' := (serve urlHostname m r w).1 in
   Http.header w' !! "Access-Control-Allow-Origin"%string
     = Some ["*"%string] /\
   Http.header w' !! "Access-Control-Allow-Credentials"%string
     = Http.header w !! "Access-Control-Allow-Credentials"%string /\
   Http.header w' !! "Access-Control-Expose-Headers"%string
     = Http.header w !! "Access-Control-Expose-Headers"%string /\
   (Request.Method r = "OPTIONS"%string ->
    Http.Get (Request.Header r) "Access-Control-Request-Method"
      ≠ EmptyString ->
    (serve urlHostname m r w).2 = false /\
    Http.header w' !! "Access-Control-Allow-Methods"%string
      = Some ["GET, HEAD, POST"%string] /\
    Http.header w' !! "Access-Control-Allow-Headers"%string
      = Some ["Origin, Accept, Content-Type, X-Requested-With"%string] /\
    Http.header w' !! "Access-Control-Max-Age"%string
      = Some ["3600"%string] /\
    (Http.status w = None -> Http.status w' = Some Http.StatusNoContent))).
Proof.
  intros m.
  assert (Hm : CORS [] =
    (mkMiddleware ∅ true false 3600 "GET, HEAD, POST"
       "Origin, Accept, Content-Type, X-Requested-With" "" "3600", []))
    by reflexivity.
  subst m. rewrite Hm. cbn [fst snd].
  do 7 (split; [reflexivity |]).
  intros Horigin.
  split; [| split; [| split]].
  - rewrite serve_allow_origin; [reflexivity | exact Horigin |].
    now right.
  - apply serve_no_credentials. reflexivity.
  - unfold serve.
    destruct (String.eqb_spec (Http.Get (Request.Header r) "Origin") "")
      as [? | _]; [contradiction |].
    rewrite andb_false_r.
    destruct (String.eqb (Request.Method r) MethodOptions && _);
      cbn -[setHeader addHeader Http.WriteHeader Http.header];
      header_lookup; reflexivity.
  - intros Hmethod Hacrm. unfold serve.
    destruct (String.eqb_spec (Http.Get (Request.Header r) "Origin") "")
      as [? | _]; [contradiction |].
    rewrite andb_false_r. rewrite Hmethod.
    destruct (String.eqb_spec
                (Http.Get (Request.Header r) "Access-Control-Request-Method")
                "") as [? | _]; [contradiction |].
    cbn -[setHeader addHeader Http.WriteHeader Http.header Http.status].
    split; [reflexivity |].
    split; [header_lookup; apply header_setHeader_eq |].
    split; [header_lookup; apply header_setHeader_eq |].
    split; [header_lookup; apply header_setHeader_eq |].
    intros Hstatus. unfold Http.WriteHeader. cbn. rewrite Hstatus. reflexivity.
Qed.

End Handler.



Lemma cors_wildcard_only_disables_credentials_witness :
  let opts := [Some (WithAllowedOrigins ["*"%string]);
               Some WithAllowCredentials] in
  (CORS opts).2 = [credentialsWarning] /\
  Http.header
    (serve schemeHostPort (CORS opts).1 (getRequest "https://a.example")
       Http.newRecorder).1 !! "Access-Control-Allow-Credentials"%string
  = None /\
  Http.header
    (serve schemeHostPort (CORS opts).1 (getRequest "https://a.example")
       Http.newRecorder).1 !! "Access-Control-Allow-Origin"%string
  = Some ["*"%string].
Proof.
  intros opts.
  destruct (cors_wildcard_only_disables_credentials schemeHostPort opts [])
    as (Hlogs & _ & _ & _ & Hserve); [reflexivity | reflexivity |].
  split; [exact Hlogs |].
  destruct (Hserve (getRequest "https://a.example") Http.newRecorder)
    as [Hcred Horigin].
  split; [exact Hcred | apply Horigin; discriminate].
Defined.

Lemma cors_defaults_witness :
  let w' := (serve schemeHostPort (CORS []).1
               (preflightRequest "https://a.example") Http.newRecorder).1 in
  Http.header w' !! "Access-Control-Allow-Origin"%string = Some ["*"%string] /\
  Http.header w' !! "Access-Control-Max-Age"%string = Some ["3600"%string] /\
  Http.status w' = Some Http.StatusNoContent.
Proof.
  intros w'.
  destruct (cors_defaults schemeHostPort
              (preflightRequest "https://a.example") Http.newRecorder)
    as (_ & _ & _ & _ & _ & _ & _ & Hserve).
  destruct Hserve as (Hacao & _ & _ & Hpre); [discriminate |].
  destruct Hpre as (_ & _ & _ & Hage & Hstatus);
    [reflexivity | discriminate |].
  split; [exact Hacao |]. split; [exact Hage | apply Hstatus; reflexivity].
Defined.

End CorsFacts.

Module RecoveryFacts.
Import Recovery.
Local Open Scope Z_scope.

Lemma step_written_mono (rw : recoveryWriter) o :
  written rw = true -> written (Handler.step rw o) = true.
Proof.
  intros Hw. destruct o; simpl; try exact Hw.
  - unfold WriteHeader. simpl. rewrite Hw. destruct (_ || _); reflexivity.
  - unfold Write. destruct (Http.Write _ _). reflexivity.
  - unfold Flush. destruct (Http.Flush _) as [? [e |]]; simpl; auto.
  - unfold Hijack. destruct (Http.Hijack _) as [? [e |]]; simpl; auto.
Qed.

Lemma run_written_mono ops : forall rw : recoveryWriter,
  written rw = true -> written (Handler.run ops rw) = true.
Proof.
  induction ops as [| o ops IH]; intros rw Hw; [exact Hw |].
  apply IH, step_written_mono, Hw.
Qed.

Lemma step_untouched w0 (rw : recoveryWriter) o :
  Handler.validOp o -> untouched w0 rw ->
  written (Handler.step rw o) = false ->
  untouched w0 (Handler.step rw o).
Proof.
  intros Hvalid (Hs & Hh & Hb & Hbody) Hw.
  destruct o; simpl in *; try (split; [exact Hs | auto]).
  - unfold WriteHeader in *. simpl in *.
    destruct ((code =? _) || (code >=? _)) eqn:Hcode; [discriminate |].
    apply orb_false_iff in Hcode as [Hne Hlt].
    unfold Http.WriteHeader. rewrite Hs.
    assert (Hinfo : Http.isInformational code = true).
    { unfold Http.isInformational. rewrite Hne.
      unfold Http.StatusOK in Hlt.
      destruct (Z.geb_spec code 200); [discriminate |].
      rewrite andb_true_r. apply andb_true_iff.
      split; apply Z.leb_le; lia. }
    rewrite Hinfo. unfold untouched. simpl. auto.
  - unfold Write in Hw. destruct (Http.Write _ _). discriminate.
  - unfold Flush in *. unfold Http.Flush in *.
    destruct (Http.canFlush (ResponseWriter rw)); simpl in *;
      [discriminate |]. unfold untouched. auto.
  - unfold Hijack in *. unfold Http.Hijack in *.
    destruct (Http.canHijack (ResponseWriter rw)); simpl in *;
      [discriminate |]. unfold untouched. auto.
Qed.

Lemma run_untouched w0 ops : forall rw : recoveryWriter,
  Forall Handler.validOp ops -> untouched w0 rw ->
  written (Handler.run ops rw) = false ->
  untouched w0 (Handler.run ops rw).
Proof.
  induction ops as [| o ops IH]; intros rw Hvalid Hu Hw; [exact Hu |].
  apply Forall_cons in Hvalid as [Hv Hvalid].
  simpl in *. apply IH; [exact Hvalid | | exact Hw].
  apply step_untouched; [exact Hv | exact Hu |].
  destruct (written (Handler.step rw o)) eqn:E; [| reflexivity].
  rewrite (run_written_mono ops _ E) in Hw. discriminate.
Qed.

Lemma httpError_header rw msg code :
  Http.header (ResponseWriter (httpError rw msg code)) !! "Content-Type"%string
  = Some ["text/plain; charset=utf-8"%string].
Proof.
  unfold httpError, Write.
  destruct (Http.Write _ _) as [w' err] eqn:Hw. simpl.
  change w' with (w', err).1. rewrite <- Hw.
  rewrite HttpFacts.header_Write. unfold WriteHeader. simpl.
  rewrite HttpFacts.header_WriteHeader. simpl.
  rewrite HttpFacts.lookup_Set_, decide_False by discriminate.
  rewrite HttpFacts.lookup_Set_. apply decide_True. reflexivity.
Qed.

Lemma httpError_untouched w0 rw msg code :
  untouched w0 rw -> Http.isInformational code = false ->
  Http.status (ResponseWriter (httpError rw msg code)) = Some code /\
  (Http.hijacked w0 = false -> Http.broken w0 = false ->
   Http.body (ResponseWriter (httpError rw msg code))
   = Http.body w0 ++ list_byte_of_string (msg +:+ Http.newline)).
Proof.
  intros (Hs & Hh & Hb & Hbody) Hcode.
  unfold httpError, Write, WriteHeader, Http.Write, Http.WriteHeader. simpl.
  rewrite Hs, Hcode. simpl. rewrite Hh, Hb.
  destruct (Http.hijacked w0), (Http.broken w0); simpl;
    (split; [reflexivity |]); intros; try discriminate.
  rewrite Hbody. reflexivity.
Qed.

Lemma panicAttrs_spec rec stack r :
  ("panic"%string, Slog.VString (Handler.text rec)) ∈ panicAttrs rec stack r /\
  ("stack"%string, Slog.VString stack) ∈ panicAttrs rec stack r /\
  (Request.ContextRequestID r ≠ EmptyString ->
   ("request_id"%string, Slog.VString (Request.ContextRequestID r))
   ∈ panicAttrs rec stack r) /\
  (Request.ContextRequestID r = EmptyString ->
   forall x, ("request_id"%string, x) ∉ panicAttrs rec stack r).
Proof.
  unfold panicAttrs.
  destruct (String.eqb_spec (Request.ContextRequestID r) "") as [He | Hne];
    simpl.
  - split; [set_solver |]. split; [set_solver |].
    split; [intros; contradiction |].
    intros _ x Hin. repeat (apply elem_of_cons in Hin as [Hin | Hin];
                            [discriminate |]).
    inversion Hin.
  - split; [set_solver |]. split; [set_solver |].
    split; [intros _; set_solver | intros; contradiction].
Qed.

(** C9, as amended: a panic of the wrapped handler whose value is not
    [http.ErrAbortHandler] is recovered (the handler returns), and logged
    once at error level with the panic value, the stack and the request
    identifier when there is one; if nothing of the response was written
    the answer is 500 Internal Server Error, otherwise the transport is left
    as the handler left it and the record says so. A panic with
    [http.ErrAbortHandler] is raised again: no record, no response. *)
Theorem recovery_handles_panic next stack r w v :
  Handler.end_ next = Handler.Panic v ->
  Forall Handler.validOp (Handler.ops next) ->
  Http.status w = None ->
  let rw := Handler.run (Handler.ops next) (mkRecoveryWriter w false) in
  let res := Recovery next stack r w in
  (v = Handler.ErrAbortHandler ->
   res = (ResponseWriter rw, Handler.Panic Handler.ErrAbortHandler, [])) /\
  (v ≠ Handler.ErrAbortHandler ->
   res.1.2 = Handler.Return /\
   exists msg attrs,
     res.2 = [Slog.Error msg attrs] /\
     ("panic"%string, Slog.VString (Handler.text v)) ∈ attrs /\
     ("stack"%string, Slog.VString stack) ∈ attrs /\
     (Request.ContextRequestID r ≠ EmptyString ->
      ("request_id"%string, Slog.VString (Request.ContextRequestID r))
      ∈ attrs) /\
     (Request.ContextRequestID r = EmptyString ->
      forall x, ("request_id"%string, x) ∉ attrs) /\
     (written rw = true ->
      res.1.1 = ResponseWriter rw /\
      ("response_already_written"%string, Slog.VBool true) ∈ attrs) /\
     (written rw = false ->
      Http.status res.1.1 = Some Http.StatusInternalServerError /\
      Http.header res.1.1 !! "Content-Type"%string
        = Some ["text/plain; charset=utf-8"%string] /\
      (Http.hijacked w = false -> Http.broken w = false ->
       Http.body res.1.1
       = Http.body w ++
         list_byte_of_string ("Internal Server Error" +:+ Http.newline)))).
Proof.
  intros Hend Hvalid Hstatus rw res. subst res. unfold Recovery.
  fold rw. rewrite Hend. split.
  - intros ->. reflexivity.
  - intros Hv.
    destruct (panicAttrs_spec v stack r) as (Hp & Hs & Hid & Hnoid).
    assert (Hu : written rw = false -> untouched w rw).
    { intros Hw. apply run_untouched; [exact Hvalid | | exact Hw].
      unfold untouched. simpl. auto. }
    destruct v as [| t | t]; [contradiction | |];
      (destruct (written rw) eqn:Hw; simpl;
       (split; [reflexivity |]); do 2 eexists;
       (split; [reflexivity |]);
       [ split; [set_solver |]; split; [set_solver |];
         split; [intros H; specialize (Hid H); set_solver |];
         split; [intros He x Hin; apply elem_of_app in Hin as [Hin | Hin];
                 [exact (Hnoid He x Hin) |];
                 apply list_elem_of_singleton in Hin; discriminate |];
         split; [intros _; split; [reflexivity | set_solver]
                | discriminate]
       | split; [exact Hp |]; split; [exact Hs |];
         split; [exact Hid |]; split; [exact Hnoid |];
         split; [discriminate |];
         intros _;
         destruct (httpError_untouched w rw "Internal Server Error"
                     Http.StatusInternalServerError (Hu eq_refl) eq_refl)
           as [H500 Hbody];
         split; [exact H500 |]; split; [apply httpError_header | exact Hbody]
       ]).
Qed.

(** The handler announces 100 Continue and panics. *)
Lemma recovery_handles_panic_witness :
  let next := Handler.mk [Handler.WriteHeader 100]
                (Handler.Panic (Handler.NonError "boom")) in
  let res := Recovery next "goroutine 1 [running]" sampleRequest
               Http.newRecorder in
  res.1.2 = Handler.Return /\
  Http.status res.1.1 = Some Http.StatusInternalServerError /\
  exists msg attrs,
    res.2 = [Slog.Error msg attrs] /\
    ("request_id"%string, Slog.VString "00000000003e8000") ∈ attrs.
Proof.
  intros next res.
  destruct (recovery_handles_panic next "goroutine 1 [running]" sampleRequest
              Http.newRecorder (Handler.NonError "boom"))
    as [_ Hother].
  - reflexivity.
  - repeat constructor; simpl; lia.
  - reflexivity.
  - destruct Hother as (Hret & msg & attrs & Hlog & _ & _ & Hid & _ & _ & H500);
      [discriminate |].
    split; [exact Hret |].
    split; [apply H500; reflexivity |].
    exists msg, attrs. split; [exact Hlog | apply Hid; discriminate].
Defined.

(** C9 as stated fails for the sentinel: the panic is raised again before
    anything is logged. *)
Lemma recovery_does_not_log_abort :
  Recovery (Handler.mk [] (Handler.Panic Handler.ErrAbortHandler))
    "goroutine 1 [running]" sampleRequest Http.newRecorder
  = (Http.newRecorder, Handler.Panic Handler.ErrAbortHandler, []).
Proof. reflexivity. Qed.

End RecoveryFacts.

Module CompressFacts.
Import Compress.
Local Open Scope Z_scope.

Section Negotiation.

Context `{FloatParser}.

Lemma acceptsGzipFrom_skips before parts :
  Forall (fun p => namesGzip p = false) before ->
  acceptsGzipFrom (before ++ parts)
  = acceptsGzipFrom parts.
Proof.
  induction 1 as [| p before Hp _ IH]; [reflexivity |].
  simpl. unfold namesGzip in Hp. destruct (entry p) as [encoding params].
  simpl in Hp. rewrite Hp. exact IH.
Qed.

Lemma zeroQuality_empty : zeroQuality "" = false.
Proof. reflexivity. Qed.



Lemma acceptsGzip_no_entry header :
  Forall (fun p => namesGzip p = false) (Strings.SplitSeq header ",") ->
  acceptsGzip header = false.
Proof.
  intros Hnone. unfold acceptsGzip.
  rewrite <- (app_nil_r (Strings.SplitSeq header ",")).
  rewrite acceptsGzipFrom_skips by exact Hnone. reflexivity.
Qed.

End Negotiation.

Section Negotiated.

Context `{Gzip} `{ContentSniffer} `{FloatParser}.


End Negotiated.

Section Writer.

Context `{Gzip} `{ContentSniffer}.

Lemma shouldSkipGzip_true w :
  skipCondition w -> shouldSkipGzip w = true.
Proof.
  unfold skipCondition, shouldSkipGzip.
  intros [Hct | [Hlen | [Hce | [Hs | [Hs | [Hs | Hs]]]]]].
  - rewrite Hct. reflexivity.
  - destruct (compressedContentTypes _); [reflexivity |].
    destruct (Z.ltb_spec (Z.of_nat (length (buf w))) minCompressSize);
      [reflexivity | lia].
  - destruct (compressedContentTypes _); [reflexivity |].
    destruct (_ <? minCompressSize); [reflexivity |].
    destruct (String.eqb_spec
                (Http.Get (Http.header (ResponseWriter w)) "Content-Encoding")
                ""); [contradiction | reflexivity].
  - destruct (compressedContentTypes _); [reflexivity |].
    destruct (_ <? minCompressSize); [reflexivity |].
    destruct (negb _); [reflexivity |]. rewrite Hs. reflexivity.
  - destruct (compressedContentTypes _); [reflexivity |].
    destruct (_ <? minCompressSize); [reflexivity |].
    destruct (negb _); [reflexivity |]. rewrite Hs. reflexivity.
  - destruct (compressedContentTypes _); [reflexivity |].
    destruct (_ <? minCompressSize); [reflexivity |].
    destruct (negb _); [reflexivity |]. rewrite Hs. reflexivity.
  - destruct (compressedContentTypes _); [reflexivity |].
    destruct (_ <? minCompressSize); [reflexivity |].
    destruct (negb _); [reflexivity |].
    destruct (_ || _); [reflexivity |].
    destruct (_ =? Http.StatusPartialContent); [reflexivity |].
    unfold Http.StatusOK.
    destruct (Z.ltb_spec (statusCode w) 200); [reflexivity | lia].
Qed.

Lemma body_Write_ok rw b :
  Http.hijacked rw = false -> Http.broken rw = false ->
  Http.Write rw b
  = (Http.withBody (Http.WriteHeader rw Http.StatusOK)
       (Http.body rw ++ b), None).
Proof.
  intros Hh Hb. unfold Http.Write. rewrite Hh, Hb.
  unfold Http.WriteHeader. destruct (Http.status rw); reflexivity.
Qed.

(** C7: when a skip condition holds at the decision, [commit] decides to
    skip, leaves the header map as the handler made it (no Content-Encoding
    is set, Content-Length stays), sends the status and hands the buffer as
    it is to the transport; the gzip writer is not used. *)
Theorem commit_skips_compression w :
  decided w = false ->
  skipCondition w ->
  let w' := commit w in
  decided w' = true /\ skipGzip w' = true /\
  Http.header (ResponseWriter w') = Http.header (ResponseWriter w) /\
  Http.header (ResponseWriter w') !! "Content-Encoding"%string
    = Http.header (ResponseWriter w) !! "Content-Encoding"%string /\
  gw w' = gw w /\ buf w' = [] /\
  (Http.hijacked (ResponseWriter w) = false ->
   Http.broken (ResponseWriter w) = false ->
   Http.body (ResponseWriter w') = Http.body (ResponseWriter w) ++ buf w).
Proof.
  intros Hd Hskip w'. subst w'. unfold commit.
  rewrite Hd, (shouldSkipGzip_true w Hskip). simpl.
  set (code := if statusCode w =? 0 then Http.StatusOK else statusCode w).
  assert (Hwh : Http.withHeader (ResponseWriter w)
                  (Http.header (ResponseWriter w)) = ResponseWriter w)
    by (destruct (ResponseWriter w); reflexivity).
  rewrite Hwh.
  destruct (buf w) as [| b0 bs] eqn:Hbuf.
  - simpl. rewrite HttpFacts.header_WriteHeader.
    repeat split; try reflexivity.
    intros _ _. rewrite app_nil_r.
    unfold Http.WriteHeader. destruct (Http.status _); [reflexivity |].
    destruct (Http.isInformational code); reflexivity.
  - destruct (Http.Write (Http.WriteHeader (ResponseWriter w) code) (b0 :: bs))
      as [rw' err] eqn:Hw.
    simpl.
    assert (Hhdr : Http.header rw' = Http.header (ResponseWriter w)).
    { change rw' with (rw', err).1. rewrite <- Hw.
      rewrite HttpFacts.header_Write. apply HttpFacts.header_WriteHeader. }
    rewrite Hhdr. repeat split; try reflexivity.
    intros Hh Hb.
    assert (Hh' : Http.hijacked (Http.WriteHeader (ResponseWriter w) code)
                  = false).
    { unfold Http.WriteHeader. destruct (Http.status _); [exact Hh |].
      destruct (Http.isInformational code); exact Hh. }
    assert (Hb' : Http.broken (Http.WriteHeader (ResponseWriter w) code)
                  = false).
    { unfold Http.WriteHeader. destruct (Http.status _); [exact Hb |].
      destruct (Http.isInformational code); exact Hb. }
    rewrite (body_Write_ok _ _ Hh' Hb') in Hw. injection Hw as <- _.
    simpl. f_equal.
    unfold Http.WriteHeader. destruct (Http.status _); [reflexivity |].
    destruct (Http.isInformational code); reflexivity.
Qed.

(** *** What the wrapper has delivered *)










Lemma commit_decided w : decided w = true -> commit w = w.
Proof. intros Hd. unfold commit. rewrite Hd. reflexivity. Qed.


Lemma withStatusCode_tracks b0 done w code :
  tracks b0 done w -> tracks b0 done (withStatusCode w code).
Proof. intros Ht. exact Ht. Qed.










(** When the decision is to compress, the header says so before the status
    line goes out. *)
Lemma commit_sets_content_encoding w :
  decided w = false -> shouldSkipGzip w = false ->
  skipGzip (commit w) = false /\
  Http.header (ResponseWriter (commit w))
    !! "Content-Encoding"%string = Some ["gzip"%string] /\
  Http.header (ResponseWriter (commit w))
    !! "Content-Length"%string = None.
Proof.
  intros Hd Hskip. unfold commit. rewrite Hd, Hskip. simpl.
  set (h := Http.Del _ "Content-Length").
  assert (Hh : h !! "Content-Encoding"%string = Some ["gzip"%string] /\
               h !! "Content-Length"%string = None).
  { subst h. split.
    - rewrite HttpFacts.lookup_Del_ne by discriminate.
      rewrite HttpFacts.lookup_Set_. apply decide_True. reflexivity.
    - unfold Http.Del. apply lookup_delete_eq. }
  set (code := if statusCode w =? 0 then Http.StatusOK else statusCode w).
  destruct (buf w) as [| x bs].
  - simpl. rewrite HttpFacts.header_WriteHeader. simpl. auto.
  - unfold gwWrite. simpl. destruct (gzWrite (gw w) (x :: bs)) as [g out].
    unfold emit. simpl.
    destruct out as [| o out]; simpl.
    + rewrite HttpFacts.header_WriteHeader. simpl. auto.
    + destruct (Http.Write _ (o :: out)) as [rw' err] eqn:Hw. simpl.
      change rw' with (rw', err).1. rewrite <- Hw.
      rewrite HttpFacts.header_Write, HttpFacts.header_WriteHeader. simpl.
      auto.
Qed.

Context `{FloatParser}.


End Writer.





Lemma commit_skips_compression_witness :
  let w' := commit smallBuffer in
  skipGzip w' = true /\
  Http.header (ResponseWriter w') !! "Content-Encoding"%string = None /\
  Http.body (ResponseWriter w') = list_byte_of_string "hi".
Proof.
  intros w'.
  destruct (commit_skips_compression smallBuffer)
    as (_ & Hskip & _ & Hce & _ & _ & Hbody).
  - reflexivity.
  - right. left. unfold minCompressSize. simpl. lia.
  - split; [exact Hskip |]. split; [exact Hce |].
    apply Hbody; reflexivity.
Defined.


End CompressFacts.

Module HttpCallFacts.
Local Open Scope Z_scope.

Lemma canFlush_WriteHeader w code :
  Http.canFlush (Http.WriteHeader w code) = Http.canFlush w /\
  Http.canHijack (Http.WriteHeader w code) = Http.canHijack w.
Proof.
  unfold Http.WriteHeader. destruct (Http.status w); [auto|].
  destruct (Http.isInformational code); auto.
Qed.

(** The transport keeps its capabilities through every call. *)
Lemma step_capabilities (w : Http.ResponseWriter) o :
  Http.canFlush (Handler.step w o) = Http.canFlush w /\
  Http.canHijack (Handler.step w o) = Http.canHijack w.
Proof.
  destruct o; simpl; auto.
  - apply canFlush_WriteHeader.
  - unfold Http.Write. destruct (Http.hijacked w); [auto|].
    destruct (Http.broken w); [auto|]. simpl. apply canFlush_WriteHeader.
  - unfold Http.Flush. destruct (Http.canFlush w) eqn:Hf; simpl; [|auto].
    destruct (canFlush_WriteHeader w Http.StatusOK) as [-> ->]. auto.
  - unfold Http.Hijack. destruct (Http.canHijack w) eqn:Hh; simpl; auto.
Qed.

Lemma status_WriteHeader_final w code :
  Http.isInformational code = false ->
  Http.status (Http.WriteHeader w code) <> None.
Proof.
  intros Hi. unfold Http.WriteHeader.
  destruct (Http.status w) eqn:Hs; [congruence|]. rewrite Hi. discriminate.
Qed.

Lemma WriteHeader_sink w code :
  Http.hijacked (Http.WriteHeader w code) = Http.hijacked w /\
  Http.broken (Http.WriteHeader w code) = Http.broken w.
Proof.
  unfold Http.WriteHeader. destruct (Http.status w); [auto|].
  destruct (Http.isInformational code); auto.
Qed.

Lemma WriteHeader_settled w code :
  Http.status w <> None -> Http.WriteHeader w code = w.
Proof.
  unfold Http.WriteHeader. destruct (Http.status w); [reflexivity|congruence].
Qed.

Lemma status_Write w b :
  Http.status w <> None -> Http.status (Http.Write w b).1 = Http.status w.
Proof.
  intros Hs. unfold Http.Write.
  destruct (Http.hijacked w); [reflexivity|].
  destruct (Http.broken w); [reflexivity|]. simpl.
  now rewrite WriteHeader_settled.
Qed.

Lemma status_Flush w :
  Http.status w <> None -> Http.status (Http.Flush w).1 = Http.status w.
Proof.
  intros Hs. unfold Http.Flush. destruct (Http.canFlush w); [|reflexivity].
  simpl. now rewrite WriteHeader_settled.
Qed.

Lemma written_app ops1 ops2 :
  Handler.written (ops1 ++ ops2)
  = Handler.written ops1 ++ Handler.written ops2.
Proof. unfold Handler.written. now rewrite omap_app, concat_app. Qed.

End HttpCallFacts.

Module RequestIDFacts.
Import Int Snowflake RequestID SnowflakeFacts.
Local Open Scope Z_scope.

Lemma fromHexChar_hexDigit n :
  0 <= n < 16 -> fromHexChar (hexDigit n) = Some n.
Proof.
  intros Hn. replace n with (Z.of_nat (Z.to_nat n)) by lia.
  assert (Hk : (Z.to_nat n < 16)%nat) by lia.
  revert Hk. generalize (Z.to_nat n). intros k Hk.
  do 16 (destruct k as [|k]; [reflexivity|]). lia.
Qed.

Lemma hexDigit_lower n : isLowerHex (hexDigit n) = true.
Proof.
  destruct n as [|p|p]; try reflexivity.
  do 4 (destruct p as [p|p|]; try reflexivity).
Qed.

Lemma isLowerHex_printable s :
  Forall (fun c => isLowerHex c = true) (list_ascii_of_string s) ->
  isPrintableASCII s = true.
Proof.
  induction s as [|c s IH]; simpl; [reflexivity|].
  intros Hall. inversion Hall as [|? ? Hc Hs]; subst.
  rewrite IH by assumption.
  unfold isLowerHex in Hc.
  destruct (Z.ltb_spec (Z.of_N (N_of_ascii c)) 32),
           (Z.gtb_spec (Z.of_N (N_of_ascii c)) 126); simpl; try reflexivity;
    exfalso;
    repeat match type of Hc with
           | context [?a <=? ?b] => destruct (Z.leb_spec a b)
           end; simpl in Hc; try discriminate; lia.
Qed.

Lemma hexNibbles_format n v :
  String.length (hexNibbles n v) = n /\
  Forall (fun c => isLowerHex c = true) (list_ascii_of_string (hexNibbles n v)).
Proof.
  induction n as [|n [IHl IHf]]; simpl; [split; [reflexivity|constructor]|].
  split; [now rewrite IHl|].
  constructor; [apply hexDigit_lower | exact IHf].
Qed.

Lemma hexValue_hexNibbles n : forall v acc,
  0 <= v ->
  hexValue (hexNibbles n v) acc = Some (acc * 16 ^ Z.of_nat n + v mod 16 ^ Z.of_nat n).
Proof.
  induction n as [|n IH]; intros v acc Hv.
  - simpl. rewrite Z.mod_1_r. f_equal. lia.
  - cbn [hexNibbles hexValue].
    assert (Hd : Z.land (Z.shiftr v (4 * Z.of_nat n)) 15
                 = (v / 16 ^ Z.of_nat n) mod 16).
    { change 15 with (Z.ones 4). rewrite Z.land_ones by lia.
      rewrite Z.shiftr_div_pow2 by lia.
      replace (2 ^ (4 * Z.of_nat n)) with (16 ^ Z.of_nat n)
        by (change 16 with (2 ^ 4); rewrite <- Z.pow_mul_r by lia; reflexivity).
      reflexivity. }
    rewrite Hd.
    assert (Hpos : 0 < 16 ^ Z.of_nat n) by (apply Z.pow_pos_nonneg; lia).
    rewrite fromHexChar_hexDigit by (apply Z.mod_pos_bound; lia).
    simpl. rewrite IH by assumption. f_equal.
    replace (Z.of_nat (S n)) with (Z.of_nat n + 1) by lia.
    rewrite Z.pow_add_r by lia. change (16 ^ 1) with 16.
    rewrite (Z.rem_mul_r v (16 ^ Z.of_nat n) 16) by lia.
    lia.
Qed.

Lemma hexValue_hexEncode64 v :
  0 <= v < 2 ^ 64 -> hexValue (hexEncode64 v) 0 = Some v.
Proof.
  intros Hv. unfold hexEncode64. rewrite hexValue_hexNibbles by lia.
  f_equal. change (16 ^ Z.of_nat 16) with (2 ^ 64).
  rewrite Z.mod_small by lia. lia.
Qed.

Lemma hexEncode64_format v :
  String.length (hexEncode64 v) = 16%nat /\
  Forall (fun c => isLowerHex c = true) (list_ascii_of_string (hexEncode64 v)).
Proof. apply hexNibbles_format. Qed.

Lemma generate_inv g clock id g' clock' logs :
  generate g clock = Some (id, g', clock', logs) ->
  exists r, generateID g clock = Some r /\ id = hexEncode64 (gen_id r) /\
            g' = gen_state r /\ clock' = gen_clock r /\ logs = gen_logs r.
Proof.
  unfold generate. destruct (generateID g clock) as [r|]; simpl; [|discriminate].
  intros [= <- <- <- <-]. eauto 6.
Qed.

Lemma decode_fields ts mid seq :
  0 <= ts < 2 ^ 41 -> 0 <= mid < 2 ^ 16 -> 0 <= seq < 2 ^ 7 ->
  let id := ts * 2 ^ 23 + mid * 2 ^ 7 + seq in
  decodeTimestamp id = ts /\ decodeMachine id = mid /\ decodeSequence id = seq.
Proof.
  intros Hts Hmid Hseq id. unfold decodeTimestamp, decodeMachine, decodeSequence.
  change snowflakeTimestampShift with 23. change snowflakeMachineShift with 7.
  change snowflakeMachineMask with (Z.ones 16).
  change snowflakeMaxSequence with (Z.ones 7).
  rewrite !Z.land_ones, !Z.shiftr_div_pow2 by lia.
  subst id. repeat split.
  - symmetry. apply (Z.div_unique _ _ _ (mid * 2 ^ 7 + seq)); lia.
  - replace ((ts * 2 ^ 23 + mid * 2 ^ 7 + seq) / 2 ^ 7) with (ts * 2 ^ 16 + mid).
    + symmetry. apply (Z.mod_unique _ _ ts); lia.
    + apply (Z.div_unique _ _ _ seq); lia.
  - symmetry. apply (Z.mod_unique _ _ (ts * 2 ^ 16 + mid)); lia.
Qed.

(** The RequestID handler would keep an identifier of the generator. *)
Lemma hexEncode64_valid v : mustGenerate (hexEncode64 v) = false.
Proof.
  destruct (hexEncode64_format v) as [Hlen Hhex].
  unfold mustGenerate. rewrite Hlen, (isLowerHex_printable _ Hhex).
  destruct (hexEncode64 v); [discriminate Hlen|reflexivity].
Qed.

(** X1. An identifier returned by [generate] reads back, with the decoder
    of the tests, as the timestamp and the sequence number the generator
    has recorded and the machine number it was built with. *)
Theorem generate_decodes g clock id g' clock' logs :
  wf g ->
  generate g clock = Some (id, g', clock', logs) ->
  lastTimestamp g' < 2 ^ 41 ->
  decodeSnowflakeID id = Some (lastTimestamp g', machineID g, sequence g').
Proof.
  intros Hwf Hgen Hlast.
  destruct (generate_inv _ _ _ _ _ _ Hgen) as (r & Hr & -> & -> & _ & _).
  destruct (generateID_step g clock r Hwf Hr Hlast) as ((Hl & Hs & _) & _ & Hid).
  destruct Hwf as (_ & _ & Hm).
  unfold decodeSnowflakeID.
  rewrite (proj1 (hexEncode64_format (gen_id r))). simpl Nat.eqb. cbv iota.
  rewrite hexValue_hexEncode64 by (rewrite Hid; lia). simpl.
  rewrite Hid.
  destruct (decode_fields (lastTimestamp (gen_state r)) (machineID g)
              (sequence (gen_state r))) as (-> & -> & ->); try lia.
  rewrite wrapI64_small by lia. reflexivity.
Qed.

Lemma generate_decodes_witness :
  exists id g' clock' logs,
    generate (newSnowflakeGenerator (Some "host"%string)).1 sampleClock
      = Some (id, g', clock', logs) /\
    decodeSnowflakeID id
      = Some (lastTimestamp g',
              machineID (newSnowflakeGenerator (Some "host"%string)).1,
              sequence g').
Proof.
  eexists _, _, _, _. split; [reflexivity|].
  eapply (generate_decodes (newSnowflakeGenerator (Some "host"%string)).1
            sampleClock).
  - apply newSnowflakeGenerator_wf.
  - reflexivity.
  - vm_compute. reflexivity.
Defined.

(** X2. Whatever the state of the generator, the identifier is a string of
    16 lower-case hexadecimal digits, which the RequestID handler itself
    would take as a valid incoming identifier. *)
Theorem generate_format g clock id g' clock' logs :
  generate g clock = Some (id, g', clock', logs) ->
  String.length id = 16%nat /\
  Forall (fun c => isLowerHex c = true) (list_ascii_of_string id) /\
  mustGenerate id = false.
Proof.
  intros Hgen.
  destruct (generate_inv _ _ _ _ _ _ Hgen) as (r & _ & -> & _).
  destruct (hexEncode64_format (gen_id r)) as [Hlen Hhex].
  repeat split; try assumption. apply hexEncode64_valid.
Qed.

Lemma generate_format_witness :
  exists id g' clock' logs,
    generate (mkGen 7 3 1000) [snowflakeEpochMs + 1000]
      = Some (id, g', clock', logs) /\
    String.length id = 16%nat /\ mustGenerate id = false.
Proof.
  eexists _, _, _, _. split; [reflexivity|].
  destruct (generate_format (mkGen 7 3 1000) [snowflakeEpochMs + 1000]
              _ _ _ _ eq_refl) as (Hl & _ & Hm).
  split; assumption.
Defined.

(** X3. When the clock reads the millisecond of the previous identifier
    the sequence number goes up by one; past 127 the generator waits for the
    first reading of a later millisecond and starts again at 0, and it does
    not return while the clock stands still. *)
Theorem generate_same_millisecond g t clock :
  sinceEpoch t = lastTimestamp g -> 0 <= sequence g <= 127 ->
  (sequence g < 127 ->
   generateID g (t :: clock) =
   Some (mkGenerated
           (composeID (lastTimestamp g) (machineID g) (sequence g + 1))
           (mkGen (machineID g) (sequence g + 1) (lastTimestamp g))
           clock [])) /\
  (sequence g = 127 ->
   (forall behind u rest,
      clock = behind ++ u :: rest ->
      Forall (fun v => sinceEpoch v <= lastTimestamp g) behind ->
      lastTimestamp g < sinceEpoch u ->
      generateID g (t :: clock) =
      Some (mkGenerated (composeID (sinceEpoch u) (machineID g) 0)
              (mkGen (machineID g) 0 (sinceEpoch u)) rest [])) /\
   (Forall (fun v => sinceEpoch v <= lastTimestamp g) clock ->
    generateID g (t :: clock) = None)).
Proof.
  intros Hnow Hseq.
  assert (Hstart : generateID g (t :: clock) =
            '(now2, seq2, clock3) ←
              nextSequence g (lastTimestamp g) (sequence g) clock;
            Some (mkGenerated (composeID now2 (machineID g) seq2)
                    (mkGen (machineID g) seq2 now2) clock3 [])).
  { unfold generateID, currentTimestampMs, clockBackward. simpl.
    rewrite Hnow, Z.ltb_irrefl. reflexivity. }
  rewrite Hstart. unfold nextSequence. rewrite Z.eqb_refl.
  rewrite wrapU64_small by lia.
  change snowflakeMaxSequence with 127.
  split.
  - intros Hlt. destruct (Z.gtb_spec (sequence g + 1) 127); [lia|reflexivity].
  - intros Hmax. destruct (Z.gtb_spec (sequence g + 1) 127); [|lia].
    assert (Hcond : (lastTimestamp g <=? lastTimestamp g) = true)
      by (apply Z.leb_le; lia).
    split.
    + intros behind u rest -> Hbehind Hu.
      rewrite (spinWhile_skip (fun n => n <=? lastTimestamp g));
        [| exact Hcond
         | eapply Forall_impl; [exact Hbehind|]; simpl; intros; now apply Z.leb_le ].
      rewrite spinWhile_done by (apply Z.leb_gt; lia). reflexivity.
    + intros Hall. rewrite <- (app_nil_r clock).
      rewrite (spinWhile_skip (fun n => n <=? lastTimestamp g));
        [ reflexivity | exact Hcond
        | eapply Forall_impl; [exact Hall|]; simpl; intros; now apply Z.leb_le ].
Qed.

Lemma generate_same_millisecond_witness :
  generateID (mkGen 7 127 1000)
    [snowflakeEpochMs + 1000; snowflakeEpochMs + 1000; snowflakeEpochMs + 1001]
  = Some (mkGenerated (composeID 1001 7 0) (mkGen 7 0 1001) [] []) /\
  generateID (mkGen 7 127 1000) [snowflakeEpochMs + 1000; snowflakeEpochMs + 1000]
  = None /\
  generateID (mkGen 7 5 1000) [snowflakeEpochMs + 1000]
  = Some (mkGenerated (composeID 1000 7 6) (mkGen 7 6 1000) [] []).
Proof.
  pose proof (generate_same_millisecond (mkGen 7 127 1000)
                (snowflakeEpochMs + 1000)
                [snowflakeEpochMs + 1000; snowflakeEpochMs + 1001]
                eq_refl ltac:(simpl; lia)) as [_ Hfull].
  pose proof (generate_same_millisecond (mkGen 7 127 1000)
                (snowflakeEpochMs + 1000) [snowflakeEpochMs + 1000]
                eq_refl ltac:(simpl; lia)) as [_ Hwait].
  pose proof (generate_same_millisecond (mkGen 7 5 1000)
                (snowflakeEpochMs + 1000) []
                eq_refl ltac:(simpl; lia)) as [Hnext _].
  split; [|split].
  - apply (proj1 (Hfull eq_refl) [snowflakeEpochMs + 1000]
             (snowflakeEpochMs + 1001) []).
    + reflexivity.
    + repeat constructor. vm_compute. discriminate.
    + vm_compute. reflexivity.
  - apply (proj2 (Hwait eq_refl)). repeat constructor. vm_compute. discriminate.
  - apply Hnext. simpl. lia.
Defined.

(** X4. Whatever identifier the client sends, the one the RequestID
    handler hands on is not empty, at most 256 bytes long and made of
    printable ASCII; the context, the request header and the response header
    carry that same identifier, and the rest of the request is unchanged. *)
Theorem RequestID_hands_on_clean_id g clk r w s :
  serve g clk r w = Some s ->
  let id := GetRequestID (request s) in
  id <> EmptyString /\
  Z.of_nat (String.length id) <= maxRequestIDLength /\
  isPrintableASCII id = true /\
  Http.Get (Request.Header (request s)) RequestIDHeader = id /\
  Http.Get (Http.header (writer s)) RequestIDHeader = id /\
  Request.Method (request s) = Request.Method r /\
  Request.Path (request s) = Request.Path r.
Proof.
  unfold serve. intros Hs.
  assert (Hid : exists id g' c' l,
            s = mkServed
                  (Request.mk (Request.Method r) (Request.Path r)
                     (Http.Set_ (Request.Header r) RequestIDHeader id) id)
                  (Http.withHeader w (Http.Set_ (Http.header w) RequestIDHeader id))
                  g' c' l /\ mustGenerate id = false).
  { destruct (mustGenerate (Http.Get (Request.Header r) RequestIDHeader)) eqn:Hm.
    - destruct (generate g clk) as [[[[id g'] c'] l]|] eqn:Hgen;
        simpl in Hs; [|discriminate].
      injection Hs as <-. exists id, g', c', l. split; [reflexivity|].
      destruct (generate_inv _ _ _ _ _ _ Hgen) as (res & _ & -> & _).
      apply hexEncode64_valid.
    - simpl in Hs. injection Hs as <-. eauto 6. }
  destruct Hid as (id & g' & c' & l & -> & Hm). simpl.
  unfold mustGenerate in Hm.
  apply orb_false_elim in Hm as [Hm Hp]. apply orb_false_elim in Hm as [He Hl].
  repeat split.
  - intros ->. discriminate He.
  - destruct (Z.gtb_spec (Z.of_nat (String.length id)) maxRequestIDLength);
      [discriminate|lia].
  - now destruct (isPrintableASCII id).
  - unfold Http.Get, Http.Set_. now rewrite lookup_insert_eq.
  - unfold Http.Get, Http.Set_. simpl. now rewrite lookup_insert_eq.
Qed.

Lemma RequestID_hands_on_clean_id_witness :
  exists s,
    serve (mkGen 7 3 1000) [snowflakeEpochMs + 1000]
      (requestWithID (String (ascii_of_nat 7) "bell")) Http.newRecorder
    = Some s /\
    isPrintableASCII (GetRequestID (request s)) = true /\
    Http.Get (Http.header (writer s)) RequestIDHeader = GetRequestID (request s).
Proof.
  eexists. split; [reflexivity|].
  pose proof (RequestID_hands_on_clean_id (mkGen 7 3 1000)
                [snowflakeEpochMs + 1000]
                (requestWithID (String (ascii_of_nat 7) "bell"))
                Http.newRecorder _ eq_refl) as (_ & _ & Hp & _ & Hw & _).
  split; assumption.
Defined.

(** X5. An incoming identifier that is not empty, at most 256 bytes long
    and printable is kept as it is: the handler does not read the clock,
    leaves the generator alone, logs nothing and cannot wait. *)
Theorem RequestID_reuses_valid_id g clk r w :
  let id := Http.Get (Request.Header r) RequestIDHeader in
  id <> EmptyString ->
  Z.of_nat (String.length id) <= maxRequestIDLength ->
  isPrintableASCII id = true ->
  exists s,
    serve g clk r w = Some s /\
    GetRequestID (request s) = id /\
    Http.Get (Http.header (writer s)) RequestIDHeader = id /\
    generator s = g /\ clock s = clk /\ logs s = [].
Proof.
  intros id Hne Hlen Hp. unfold serve. fold id.
  assert (Hm : mustGenerate id = false).
  { unfold mustGenerate. rewrite Hp.
    destruct (String.eqb_spec id ""); [contradiction|].
    destruct (Z.gtb_spec (Z.of_nat (String.length id)) maxRequestIDLength);
      [lia|reflexivity]. }
  rewrite Hm. simpl. eexists. split; [reflexivity|]. simpl.
  repeat split. unfold Http.Get, Http.Set_. now rewrite lookup_insert_eq.
Qed.

Lemma RequestID_reuses_valid_id_witness :
  exists s,
    serve (mkGen 7 3 1000) [] (requestWithID "client-42") Http.newRecorder
    = Some s /\
    GetRequestID (request s) = "client-42"%string /\
    generator s = mkGen 7 3 1000.
Proof.
  destruct (RequestID_reuses_valid_id (mkGen 7 3 1000) []
              (requestWithID "client-42") Http.newRecorder)
    as (s & Hs & Hid & _ & Hg & _).
  - discriminate.
  - vm_compute. discriminate.
  - reflexivity.
  - exists s. repeat split; assumption.
Defined.

End RequestIDFacts.

Module RateLimitSeriesFacts.
Import RateLimit RateLimitSeries RateLimitFacts.
Local Open Scope Q_scope.



















End RateLimitSeriesFacts.

Module CorsCasesFacts.
Import Cors CorsCases HttpFacts CorsFacts.
Local Open Scope Z_scope.

Lemma header_addHeader_eq w k v :
  Http.header (addHeader w k v) !! k
  = Some (default [] (Http.header w !! k) ++ [v]).
Proof.
  unfold addHeader. rewrite header_withHeader. unfold Http.Add.
  apply lookup_insert_eq.
Qed.

Lemma status_setHeader w k v : Http.status (setHeader w k v) = Http.status w.
Proof. reflexivity. Qed.

Lemma status_addHeader w k v : Http.status (addHeader w k v) = Http.status w.
Proof. reflexivity. Qed.

Lemma status_if_setHeader (b : bool) w k v :
  Http.status (if b then setHeader w k v else w) = Http.status w.
Proof. now destruct b. Qed.

Lemma body_if_setHeader (b : bool) w k v :
  Http.body (if b then setHeader w k v else w) = Http.body w.
Proof. now destruct b. Qed.

Lemma header_if_setHeader_eq (b : bool) w k v :
  Http.header (if b then setHeader w k v else w) !! k
  = if b then Some [v] else Http.header w !! k.
Proof. destruct b; [apply header_setHeader_eq | reflexivity]. Qed.

Lemma validateOrigin_accepts origin validators :
  (validateOrigin origin validators).1 = true <->
  forall v, Some v ∈ validators -> v origin = None.
Proof.
  induction validators as [|[v|] rest IH]; simpl.
  - split; [intros _ v Hv; inversion Hv | reflexivity].
  - destruct (v origin) as [err|] eqn:Hv; simpl.
    + split; [discriminate|]. intros Hall.
      specialize (Hall v (list_elem_of_here _ _)). congruence.
    + rewrite IH. split.
      * intros Hall v' Hin. apply elem_of_cons in Hin as [[= ->]|Hin]; auto.
      * intros Hall v' Hin. apply Hall. now apply elem_of_cons; right.
  - rewrite IH. split.
    + intros Hall v' Hin. apply elem_of_cons in Hin as [?|Hin];
        [discriminate | auto].
    + intros Hall v' Hin. apply Hall. now apply elem_of_cons; right.
Qed.

(** X10. An entry is accepted exactly when none of the validators, the nil
    ones apart, returns an error; an accepted entry is not logged, a
    rejected one is logged once, at error level, with the error of a
    validator of the list. *)
Theorem validateOrigin_verdict origin validators :
  ((validateOrigin origin validators).1 = true <->
   forall v, Some v ∈ validators -> v origin = None) /\
  ((validateOrigin origin validators).1 = true ->
   (validateOrigin origin validators).2 = []) /\
  ((validateOrigin origin validators).1 = false ->
   exists v err,
     Some v ∈ validators /\ v origin = Some err /\
     (validateOrigin origin validators).2
     = [Slog.Error "middleware: CORS invalid origin, skipping"
          [("origin"%string, Slog.VString origin);
           ("error"%string, Slog.VString (errorText err))]]).
Proof.
  split; [apply validateOrigin_accepts|].
  induction validators as [|[v|] rest [IHt IHf]]; simpl.
  - split; [reflexivity | discriminate].
  - destruct (v origin) as [err|] eqn:Hv; simpl.
    + split; [discriminate|]. intros _. exists v, err.
      split; [apply list_elem_of_here | split; [exact Hv | reflexivity]].
    + split; [exact IHt|]. intros Hf.
      destruct (IHf Hf) as (v' & err & Hin & Hv' & Hlog).
      exists v', err. split; [now apply elem_of_cons; right | auto].
  - split; [exact IHt|]. intros Hf.
    destruct (IHf Hf) as (v' & err & Hin & Hv' & Hlog).
    exists v', err. split; [now apply elem_of_cons; right | auto].
Qed.

Lemma collectOrigins_wildcard validators origins :
  forall hosts0 wild0 hosts wild logs,
  collectOrigins origins validators hosts0 wild0 = (hosts, wild, logs) ->
  wild = true <->
  wild0 = true \/
  ("*"%string ∈ origins /\ (validateOrigin "*" validators).1 = true).
Proof.
  induction origins as [|o origins IH]; intros hosts0 wild0 hosts wild logs.
  - simpl. intros [= <- <- <-]. split; [auto|].
    intros [H|[H _]]; [exact H | inversion H].
  - simpl. destruct (validateOrigin o validators) as [valid vlogs] eqn:Hv.
    destruct valid; simpl.
    + destruct (String.eqb_spec o "") as [->|Hne].
      * destruct (collectOrigins origins validators hosts0 wild0)
          as [[hosts1 wild1] logs1] eqn:Hrest.
        intros [= <- <- <-]. rewrite (IH _ _ _ _ _ Hrest).
        split; (intros [H|[Hin Hok]]; [now left | right]).
        -- split; [now apply elem_of_cons; right | exact Hok].
        -- split; [|exact Hok].
           apply elem_of_cons in Hin as [?|Hin]; [discriminate | exact Hin].
      * destruct (String.eqb_spec o "*") as [->|Hnw].
        -- destruct (collectOrigins origins validators hosts0 true)
             as [[hosts1 wild1] logs1] eqn:Hrest.
           intros [= <- <- <-]. rewrite (IH _ _ _ _ _ Hrest).
           split; [intros _; right; split;
                     [apply list_elem_of_here | now rewrite Hv]
                  | intros _; now left ].
        -- destruct (collectOrigins origins validators
                       ({[Strings.ToLower o]} ∪ hosts0) wild0)
             as [[hosts1 wild1] logs1] eqn:Hrest.
           intros [= <- <- <-]. rewrite (IH _ _ _ _ _ Hrest).
           split; (intros [H|[Hin Hok]]; [now left | right]).
           ++ split; [now apply elem_of_cons; right | exact Hok].
           ++ split; [|exact Hok].
              apply elem_of_cons in Hin as [?|Hin]; [congruence | exact Hin].
    + destruct (collectOrigins origins validators hosts0 wild0)
        as [[hosts1 wild1] logs1] eqn:Hrest.
      intros [= <- <- <-]. rewrite (IH _ _ _ _ _ Hrest).
      split; (intros [H|[Hin Hok]]; [now left | right]).
      * split; [now apply elem_of_cons; right | exact Hok].
      * split; [|exact Hok].
        apply elem_of_cons in Hin as [<-|Hin]; [|exact Hin].
        rewrite Hv in Hok. discriminate.
Qed.


(** X11. The handler answers any origin with the wildcard exactly when the
    entry * is configured and accepted by the validators and, if credentials
    were asked for, no hostname is configured beside it; credentials are
    sent exactly when they were asked for and that is not the case. *)
Theorem CORS_wildcard_and_credentials opts :
  let cfg := applyOptions opts defaultConfig in
  let m := (CORS opts).1 in
  (wildcard m = true <->
   wildcardConfigured cfg /\
   (allowCredentials cfg = false \/ size (allowedHostnames m) = 0%nat)) /\
  (credentials m = true <->
   allowCredentials cfg = true /\
   ~ (wildcardConfigured cfg /\ size (allowedHostnames m) = 0%nat)).
Proof.
  intros cfg m. subst m. unfold CORS, wildcardConfigured. fold cfg.
  destruct (collectOrigins (allowedOrigins cfg) (validateOrigins cfg) ∅ false)
    as [[hosts wild] logs] eqn:Hc.
  pose proof (collectOrigins_wildcard _ _ _ _ _ _ _ Hc) as Hw.
  assert (Hw' : wild = true <->
                "*"%string ∈ allowedOrigins cfg /\
                (validateOrigin "*" (validateOrigins cfg)).1 = true).
  { rewrite Hw. split; [intros [?|?]; [discriminate|assumption] | now right]. }
  clear Hw. rewrite <- Hw'.
  destruct (allowCredentials cfg), wild; simpl;
    try case_bool_decide; simpl; intuition (try congruence; try discriminate).
Qed.

Section Handler.

Variable urlHostname : string -> option string.

Lemma serve_not_answered m r w :
  answered urlHostname m r = false ->
  serve urlHostname m r w = (addHeader w "Vary" "Origin", true).
Proof.
  unfold answered, serve.
  destruct (String.eqb (Http.Get (Request.Header r) "Origin") "");
    [reflexivity|]. simpl.
  destruct (bool_decide _); simpl; [discriminate|].
  destruct (wildcard m); [discriminate | reflexivity].
Qed.

(** The writer after the headers every answered request gets. *)
Lemma serve_answered m r w :
  answered urlHostname m r = true ->
  exists w1,
    Http.status w1 = Http.status w /\ Http.body w1 = Http.body w /\
    (forall k, k ∉ corsHeaderNames ->
               Http.header w1 !! k = Http.header w !! k) /\
    Http.header w1 !! "Vary"%string
    = Some (default [] (Http.header w !! "Vary"%string) ++ ["Origin"%string]) /\
    Http.header w1 !! "Access-Control-Allow-Origin"%string
    = Some [if wildcard m then "*"%string
            else Http.Get (Request.Header r) "Origin"] /\
    Http.header w1 !! "Access-Control-Allow-Credentials"%string
    = (if credentials m then Some ["true"%string]
       else Http.header w !! "Access-Control-Allow-Credentials"%string) /\
    Http.header w1 !! "Access-Control-Expose-Headers"%string
    = (if String.eqb (exposed m) "" 
       then Http.header w !! "Access-Control-Expose-Headers"%string
       else Some [exposed m]) /\
    Http.header w1 !! "Access-Control-Allow-Methods"%string
    = Http.header w !! "Access-Control-Allow-Methods"%string /\
    Http.header w1 !! "Access-Control-Allow-Headers"%string
    = Http.header w !! "Access-Control-Allow-Headers"%string /\
    Http.header w1 !! "Access-Control-Max-Age"%string
    = Http.header w !! "Access-Control-Max-Age"%string /\
    serve urlHostname m r w =
    if preflight r then
      let w2 := addHeader w1 "Vary" "Access-Control-Request-Method" in
      let w2 := addHeader w2 "Vary" "Access-Control-Request-Headers" in
      let w2 :=
        if negb (String.eqb (methods m) "")
        then setHeader w2 "Access-Control-Allow-Methods" (methods m)
        else w2 in
      let w2 :=
        if negb (String.eqb (headers m) "")
        then setHeader w2 "Access-Control-Allow-Headers" (headers m)
        else w2 in
      let w2 :=
        if cfgMaxAge m >? 0
        then setHeader w2 "Access-Control-Max-Age" (maxAgeText m)
        else w2 in
      (Http.WriteHeader w2 Http.StatusNoContent, false)
    else (w1, true).
Proof.
  unfold answered. intros Ha.
  apply andb_true_iff in Ha as [Ho Hm].
  set (w0 := addHeader w "Vary" "Origin").
  set (wa := if wildcard m
             then setHeader w0 "Access-Control-Allow-Origin" "*"
             else setHeader w0 "Access-Control-Allow-Origin"
                    (Http.Get (Request.Header r) "Origin")).
  set (wc := if credentials m
             then setHeader wa "Access-Control-Allow-Credentials" "true"
             else wa).
  exists (if negb (String.eqb (exposed m) "")
          then setHeader wc "Access-Control-Expose-Headers" (exposed m)
          else wc).
  subst wc wa w0.
  repeat match goal with |- _ /\ _ => split end.
  11: { unfold serve, preflight.
       destruct (String.eqb (Http.Get (Request.Header r) "Origin") "");
         [discriminate|].
       replace (negb _ && negb (wildcard m)) with false
         by (rewrite <- negb_orb, Hm; reflexivity).
       cbv zeta. reflexivity. }
  - rewrite !status_if_setHeader. now destruct (wildcard m).
  - rewrite !body_if_setHeader. now destruct (wildcard m).
  - intros k Hk.
    assert (Hne : forall n, n ∈ corsHeaderNames -> n <> k)
      by (intros n Hn ->; contradiction).
    rewrite !header_if_setHeader_ne
      by (apply Hne; unfold corsHeaderNames; repeat constructor).
    destruct (wildcard m);
      rewrite header_setHeader_ne
        by (apply Hne; unfold corsHeaderNames; repeat constructor);
      apply header_addHeader_ne; apply Hne; unfold corsHeaderNames;
      repeat constructor.
  - rewrite !header_if_setHeader_ne by discriminate.
    destruct (wildcard m); rewrite header_setHeader_ne by discriminate;
      apply header_addHeader_eq.
  - rewrite !header_if_setHeader_ne by discriminate.
    destruct (wildcard m); apply header_setHeader_eq.
  - rewrite header_if_setHeader_ne by discriminate.
    rewrite header_if_setHeader_eq.
    destruct (credentials m); [reflexivity|].
    destruct (wildcard m); rewrite header_setHeader_ne by discriminate;
      apply header_addHeader_ne; discriminate.
  - rewrite header_if_setHeader_eq.
    destruct (String.eqb (exposed m) ""); simpl; [|reflexivity].
    rewrite header_if_setHeader_ne by discriminate.
    destruct (wildcard m); rewrite header_setHeader_ne by discriminate;
      apply header_addHeader_ne; discriminate.
  - rewrite !header_if_setHeader_ne by discriminate.
    destruct (wildcard m); rewrite header_setHeader_ne by discriminate;
      apply header_addHeader_ne; discriminate.
  - rewrite !header_if_setHeader_ne by discriminate.
    destruct (wildcard m); rewrite header_setHeader_ne by discriminate;
      apply header_addHeader_ne; discriminate.
  - rewrite !header_if_setHeader_ne by discriminate.
    destruct (wildcard m); rewrite header_setHeader_ne by discriminate;
      apply header_addHeader_ne; discriminate.
Qed.





(** X14. The handler leaves every header of the response alone but Vary
    and the six Access-Control response headers. *)
Theorem cors_touches_only_cors_headers m r w k :
  k ∉ corsHeaderNames ->
  Http.header (serve urlHostname m r w).1 !! k = Http.header w !! k.
Proof.
  intros Hk.
  assert (Hne : forall n, n ∈ corsHeaderNames -> n <> k)
    by (intros n Hn ->; contradiction).
  destruct (answered urlHostname m r) eqn:Ha.
  - destruct (serve_answered m r w Ha)
      as (w1 & _ & _ & Hother & _ & _ & _ & _ & _ & _ & _ & ->).
    destruct (preflight r); cbn [fst]; [|apply Hother; exact Hk].
    rewrite header_WriteHeader.
    rewrite !header_if_setHeader_ne
      by (apply Hne; unfold corsHeaderNames; repeat constructor).
    rewrite !header_addHeader_ne
      by (apply Hne; unfold corsHeaderNames; repeat constructor).
    apply Hother. exact Hk.
  - rewrite (serve_not_answered m r w Ha). cbn [fst].
    apply header_addHeader_ne. apply Hne. unfold corsHeaderNames.
    repeat constructor.
Qed.


(** X16. On an answered preflight the handler sets
    Access-Control-Allow-Methods and Access-Control-Allow-Headers to the
    configured lists joined by a comma and a space, and
    Access-Control-Max-Age to the configured number of seconds; a list that
    is empty and a max age that is zero or negative leave their header
    out. *)
Theorem cors_preflight_headers m r w :
  answered urlHostname m r = true -> preflight r = true ->
  let w' := (serve urlHostname m r w).1 in
  Http.header w' !! "Access-Control-Allow-Methods"%string
  = (if String.eqb (methods m) ""
     then Http.header w !! "Access-Control-Allow-Methods"%string
     else Some [methods m]) /\
  Http.header w' !! "Access-Control-Allow-Headers"%string
  = (if String.eqb (headers m) ""
     then Http.header w !! "Access-Control-Allow-Headers"%string
     else Some [headers m]) /\
  Http.header w' !! "Access-Control-Max-Age"%string
  = (if cfgMaxAge m >? 0 then Some [maxAgeText m]
     else Http.header w !! "Access-Control-Max-Age"%string).
Proof.
  intros Ha Hp. cbv zeta.
  destruct (serve_answered m r w Ha)
    as (w1 & _ & _ & _ & _ & _ & _ & _ & Hm & Hh & Ha' & ->).
  rewrite Hp. cbn [fst]. rewrite !header_WriteHeader.
  repeat match goal with |- _ /\ _ => split end.
  - rewrite !header_if_setHeader_ne by discriminate.
    rewrite header_if_setHeader_eq.
    destruct (String.eqb (methods m) ""); [|reflexivity]. cbn [negb].
    rewrite !header_addHeader_ne by discriminate. exact Hm.
  - rewrite header_if_setHeader_ne by discriminate.
    rewrite header_if_setHeader_eq.
    destruct (String.eqb (headers m) ""); [|reflexivity]. cbn [negb].
    rewrite header_if_setHeader_ne by discriminate.
    rewrite !header_addHeader_ne by discriminate. exact Hh.
  - rewrite header_if_setHeader_eq.
    destruct (cfgMaxAge m >? 0); [reflexivity|].
    rewrite !header_if_setHeader_ne by discriminate.
    rewrite !header_addHeader_ne by discriminate. exact Ha'.
Qed.

End Handler.

Lemma cors_touches_only_cors_headers_witness :
  Http.header
    (serve schemeHostPort (CORS []).1 (preflightRequest "https://a.example")
       (Http.withHeader Http.newRecorder
          (<["Content-Type"%string := ["text/html"%string]]> ∅))).1
  !! "Content-Type"%string
  = Some ["text/html"%string].
Proof.
  rewrite (cors_touches_only_cors_headers schemeHostPort).
  - reflexivity.
  - unfold corsHeaderNames. intros Hin.
    repeat (apply elem_of_cons in Hin as [Hin|Hin]; [discriminate Hin|]).
    inversion Hin.
Defined.


Lemma cors_preflight_headers_witness :
  let m := (CORS [Some (WithMaxAge 0); Some (WithAllowedMethods [])]).1 in
  let w' := (serve schemeHostPort m (preflightRequest "https://a.example")
               Http.newRecorder).1 in
  Http.header w' !! "Access-Control-Allow-Methods"%string = None /\
  Http.header w' !! "Access-Control-Allow-Headers"%string
  = Some ["Origin, Accept, Content-Type, X-Requested-With"%string] /\
  Http.header w' !! "Access-Control-Max-Age"%string = None.
Proof.
  intros m w'.
  exact (cors_preflight_headers schemeHostPort m
           (preflightRequest "https://a.example") Http.newRecorder
           eq_refl eq_refl).
Defined.

End CorsCasesFacts.

Module RecoveryCasesFacts.
Import Recovery RecoveryCases RecoveryFacts HttpCallFacts.
Local Open Scope Z_scope.

(** The wrapper hands every call on to the transport, and raises its flag
    on the calls that commit. *)
Lemma step_recoveryWriter (rw : recoveryWriter) o :
  ResponseWriter (Handler.step rw o) = Handler.step (ResponseWriter rw) o /\
  written (Handler.step rw o)
  = written rw || commits (ResponseWriter rw) o.
Proof.
  destruct rw as [w b]. destruct o; simpl.
  - rewrite orb_false_r. auto.
  - rewrite orb_false_r. auto.
  - rewrite orb_false_r. auto.
  - split; [reflexivity|].
    destruct ((code =? Http.StatusSwitchingProtocols)
              || (code >=? Http.StatusOK)); [now rewrite orb_true_r|].
    now rewrite orb_false_r.
  - unfold Write. simpl. destruct (Http.Write w b0) as [w' err]. simpl.
    rewrite orb_true_r. auto.
  - unfold Flush, Http.Flush. simpl.
    destruct (Http.canFlush w); simpl;
      [rewrite orb_true_r | rewrite orb_false_r]; auto.
  - unfold Hijack, Http.Hijack. simpl.
    destruct (Http.canHijack w); simpl;
      [rewrite orb_true_r | rewrite orb_false_r]; auto.
Qed.

Lemma commits_capabilities w w' o :
  Http.canFlush w' = Http.canFlush w -> Http.canHijack w' = Http.canHijack w ->
  commits w' o = commits w o.
Proof. intros Hf Hh. destruct o; simpl; auto. Qed.

Lemma existsb_commits_capabilities w w' ops :
  Http.canFlush w' = Http.canFlush w -> Http.canHijack w' = Http.canHijack w ->
  existsb (commits w') ops = existsb (commits w) ops.
Proof.
  intros Hf Hh. induction ops as [|o ops IH]; [reflexivity|]. simpl.
  now rewrite IH, (commits_capabilities w w' o Hf Hh).
Qed.

Lemma run_recoveryWriter ops : forall (rw : recoveryWriter),
  ResponseWriter (Handler.run ops rw) = Handler.run ops (ResponseWriter rw) /\
  written (Handler.run ops rw)
  = written rw || existsb (commits (ResponseWriter rw)) ops.
Proof.
  induction ops as [|o ops IH]; intros rw.
  - simpl. rewrite orb_false_r. auto.
  - change (Handler.run (o :: ops) rw) with (Handler.run ops (Handler.step rw o)).
    change (Handler.run (o :: ops) (ResponseWriter rw))
      with (Handler.run ops (Handler.step (ResponseWriter rw) o)).
    destruct (IH (Handler.step rw o)) as [Hw Hb].
    destruct (step_recoveryWriter rw o) as [Hw1 Hb1].
    rewrite Hw, Hb, Hw1, Hb1. split; [reflexivity|].
    destruct (step_capabilities (ResponseWriter rw) o) as [Hf Hh].
    rewrite (existsb_commits_capabilities (ResponseWriter rw) _ ops Hf Hh).
    simpl. now rewrite orb_assoc.
Qed.

(** X17. When the wrapped handler returns, or aborts with
    [http.ErrAbortHandler], the transport is in the state in which the
    handler's calls alone would have left it, the handler ends the same way
    and nothing is logged. *)
Theorem recovery_transparent_without_panic next stack r w :
  Handler.end_ next = Handler.Return \/
  Handler.end_ next = Handler.Panic Handler.ErrAbortHandler ->
  Recovery next stack r w
  = (Handler.run (Handler.ops next) w, Handler.end_ next, []).
Proof.
  intros Hend. unfold Recovery.
  destruct (run_recoveryWriter (Handler.ops next) (mkRecoveryWriter w false))
    as [-> _].
  destruct Hend as [-> | ->]; reflexivity.
Qed.

Lemma recovery_transparent_without_panic_witness :
  Recovery
    (Handler.mk [Handler.WriteHeader 404; Handler.Write (list_byte_of_string "no")]
       Handler.Return)
    "goroutine 1 [running]" sampleRequest Http.newRecorder
  = (Handler.run
       [Handler.WriteHeader 404; Handler.Write (list_byte_of_string "no")]
       Http.newRecorder,
     Handler.Return, []).
Proof.
  apply (recovery_transparent_without_panic
           (Handler.mk [Handler.WriteHeader 404;
                        Handler.Write (list_byte_of_string "no")]
              Handler.Return)).
  left. reflexivity.
Defined.

(** X18. After a panic that is not an abort, the 500 page is sent exactly
    when none of the handler's calls has begun the response: no final
    status line or 101, no write, no flush and no hijack that the transport
    supports. Informational status lines and header changes do not count.
    Otherwise the transport is left as the handler's calls left it. *)
Theorem recovery_sends_500_unless_committed next stack r w v :
  Handler.end_ next = Handler.Panic v -> v <> Handler.ErrAbortHandler ->
  let sent := Handler.run (Handler.ops next) w in
  (Recovery next stack r w).1.1
  = if existsb (commits w) (Handler.ops next) then sent
    else ResponseWriter
           (httpError (mkRecoveryWriter sent false) "Internal Server Error"
              Http.StatusInternalServerError).
Proof.
  intros Hend Hv sent. unfold Recovery. rewrite Hend.
  destruct (run_recoveryWriter (Handler.ops next) (mkRecoveryWriter w false))
    as [Hw Hb].
  simpl in Hw, Hb. fold sent in Hw.
  destruct v as [|t|t]; [contradiction| |];
    rewrite Hb; destruct (existsb (commits w) (Handler.ops next)) eqn:He;
    cbn [fst]; try exact Hw;
    (destruct (Handler.run (Handler.ops next) (mkRecoveryWriter w false))
       as [w' b']; simpl in Hw, Hb; subst; reflexivity).
Qed.

Lemma recovery_sends_500_unless_committed_witness :
  let informed := Handler.mk [Handler.WriteHeader 103;
                              Handler.SetHeader "X-Trace" "1"; Handler.Flush]
                    (Handler.Panic (Handler.NonError "boom")) in
  let noFlusher :=
    Http.mkWriter ∅ None [] [] 0 false false false false in
  Http.status (Recovery informed "stack" sampleRequest noFlusher).1.1
    = Some Http.StatusInternalServerError /\
  Http.status (Recovery informed "stack" sampleRequest Http.newRecorder).1.1
    = Some Http.StatusOK.
Proof.
  intros informed noFlusher. split.
  - rewrite (recovery_sends_500_unless_committed informed "stack"
               sampleRequest noFlusher (Handler.NonError "boom") eq_refl);
      [reflexivity | discriminate].
  - rewrite (recovery_sends_500_unless_committed informed "stack"
               sampleRequest Http.newRecorder (Handler.NonError "boom")
               eq_refl);
      [reflexivity | discriminate].
Defined.

End RecoveryCasesFacts.

Module LoggingFacts.
Import Calls Logging HttpCallFacts.
Local Open Scope Z_scope.

Lemma step_statusWriter_written (sw : statusWriter) o :
  written sw = true ->
  written (Handler.step sw o) = true /\
  status (Handler.step sw o) = status sw.
Proof.
  intros Hw. destruct sw as [w s b h]. simpl in Hw. subst b.
  destruct o; simpl; auto.
  - unfold Write. simpl. destruct (Http.Write w b); auto.
  - unfold Flush. simpl. destruct (Http.Flush w) as [rw [e|]]; auto.
  - unfold Hijack. simpl. destruct (Http.Hijack w) as [rw [e|]]; auto.
Qed.

Lemma run_statusWriter_written ops : forall sw : statusWriter,
  written sw = true ->
  written (Handler.run ops sw) = true /\
  status (Handler.run ops sw) = status sw.
Proof.
  induction ops as [|o ops IH]; intros sw Hw; [auto|].
  change (Handler.run (o :: ops) sw) with (Handler.run ops (Handler.step sw o)).
  destruct (step_statusWriter_written sw o Hw) as [Hw' Hs'].
  destruct (IH _ Hw') as [? ?]. split; congruence.
Qed.

Lemma step_statusWriter_flags (sw : statusWriter) o :
  Http.canFlush (ResponseWriter (Handler.step sw o))
  = Http.canFlush (ResponseWriter sw) /\
  Http.canHijack (ResponseWriter (Handler.step sw o))
  = Http.canHijack (ResponseWriter sw) /\
  hijacked (Handler.step sw o)
  = hijacked sw || (isHijack o && Http.canHijack (ResponseWriter sw)).
Proof.
  destruct sw as [w s b h].
  destruct o; simpl; rewrite ?orb_false_r; auto.
  - unfold WriteHeader. simpl. destruct b; simpl; auto.
    destruct (canFlush_WriteHeader w code); auto.
  - unfold Write. simpl.
    pose proof (step_capabilities w (Handler.Write b0)) as [Hf Hh].
    simpl in Hf, Hh.
    destruct b; simpl; destruct (Http.Write w b0); simpl in *; auto.
  - unfold Flush. simpl.
    pose proof (step_capabilities w Handler.Flush) as [Hf Hh].
    simpl in Hf, Hh.
    destruct (Http.Flush w) as [rw [e|]]; simpl in *; auto.
    destruct b; simpl; auto.
  - unfold Hijack, Http.Hijack. simpl.
    destruct (Http.canHijack w) eqn:Hh; simpl; rewrite ?Hh, ?orb_true_r, ?orb_false_r; auto.
Qed.

Lemma firstStatus_canFlush w w' ops :
  Http.canFlush w = Http.canFlush w' -> firstStatus w ops = firstStatus w' ops.
Proof.
  intros Hf. induction ops as [|o ops IH]; [reflexivity|].
  destruct o; simpl; rewrite <- ?Hf; auto. now rewrite IH.
Qed.

Lemma run_statusWriter_hijacked ops : forall sw : statusWriter,
  hijacked (Handler.run ops sw)
  = hijacked sw
    || (existsb isHijack ops && Http.canHijack (ResponseWriter sw)).
Proof.
  induction ops as [|o ops IH]; intros sw.
  - simpl. now rewrite orb_false_r.
  - change (Handler.run (o :: ops) sw) with (Handler.run ops (Handler.step sw o)).
    destruct (step_statusWriter_flags sw o) as (_ & Hc & Hh).
    rewrite IH, Hh, Hc. simpl.
    destruct (hijacked sw), (isHijack o), (existsb isHijack ops),
      (Http.canHijack (ResponseWriter sw)); reflexivity.
Qed.

(** The status the wrapper has recorded after the calls of a handler. *)
Lemma run_statusWriter_status ops : forall sw : statusWriter,
  written sw = false ->
  status (Handler.run ops sw)
  = default (status sw) (firstStatus (ResponseWriter sw) ops).
Proof.
  induction ops as [|o ops IH]; intros sw Hw; [reflexivity|].
  change (Handler.run (o :: ops) sw) with (Handler.run ops (Handler.step sw o)).
  destruct (step_statusWriter_flags sw o) as (Hf & _ & _).
  assert (Hkeep : written (Handler.step sw o) = false ->
                  status (Handler.step sw o) = status sw ->
                  firstStatus (ResponseWriter sw) (o :: ops)
                  = firstStatus (ResponseWriter sw) ops ->
                  status (Handler.run ops (Handler.step sw o))
                  = default (status sw)
                      (firstStatus (ResponseWriter sw) (o :: ops))).
  { intros Hw' Hs' Hfs. rewrite (IH _ Hw'), Hs', Hfs.
    now rewrite (firstStatus_canFlush _ _ ops Hf). }
  assert (Hset : forall code,
                  written (Handler.step sw o) = true ->
                  status (Handler.step sw o) = code ->
                  firstStatus (ResponseWriter sw) (o :: ops) = Some code ->
                  status (Handler.run ops (Handler.step sw o))
                  = default (status sw)
                      (firstStatus (ResponseWriter sw) (o :: ops))).
  { intros code Hw' Hs' Hfs.
    destruct (run_statusWriter_written ops _ Hw') as [_ ->].
    now rewrite Hs', Hfs. }
  clear IH Hf.
  destruct sw as [w0 s b h]. simpl in Hw. subst b.
  destruct o.
  - apply Hkeep; reflexivity.
  - apply Hkeep; reflexivity.
  - apply Hkeep; reflexivity.
  - apply (Hset code); reflexivity.
  - apply (Hset Http.StatusOK); simpl; unfold Write; simpl;
      destruct (Http.Write w0 b); reflexivity.
  - simpl in *. unfold Flush, Http.Flush in *. simpl in *.
    destruct (Http.canFlush w0) eqn:Hcf; simpl in *.
    + apply (Hset Http.StatusOK); reflexivity.
    + apply Hkeep; reflexivity.
  - simpl in *. unfold Hijack, Http.Hijack in *. simpl in *.
    destruct (Http.canHijack w0) eqn:Hch; simpl in *; apply Hkeep; reflexivity.
Qed.

Lemma firstStatus_valid w ops code :
  Forall Handler.validOp ops -> firstStatus w ops = Some code -> 100 <= code.
Proof.
  intros Hvalid. induction Hvalid as [|o ops Ho _ IH]; [discriminate|].
  destruct o; simpl; auto.
  - intros [= <-]. simpl in Ho. lia.
  - intros [= <-]. unfold Http.StatusOK. lia.
  - destruct (Http.canFlush w); [|exact IH].
    intros [= <-]. unfold Http.StatusOK. lia.
Qed.

(** X19. When the wrapped handler returns, one record is logged, with the
    message [http request], the method, the path, the duration and the
    request identifier if there is one. Its status is the code of the
    handler's first [WriteHeader], or 200 if a write or a flush that the
    transport supports comes before any; failing all of these, 101 if the
    handler has hijacked the connection and 200 if not. The level is Error
    from 500 on, Warn from 400 to 499 and Info below. *)
Theorem logging_records_first_status next start finish r w :
  Handler.end_ next = Handler.Return ->
  Forall Handler.validOp (Handler.ops next) ->
  let code :=
    match firstStatus w (Handler.ops next) with
    | Some code => code
    | None =>
        if existsb isHijack (Handler.ops next) && Http.canHijack w
        then Http.StatusSwitchingProtocols else Http.StatusOK
    end in
  exists level,
    (Logging next start finish r w).2
    = [Slog.mkRecord level "http request"
         (requestAttrs r code (RateLimit.Sub finish start))] /\
    (level = Slog.LevelError <-> 500 <= code) /\
    (level = Slog.LevelWarn <-> 400 <= code < 500) /\
    (level = Slog.LevelInfo <-> code < 400).
Proof.
  intros Hend Hvalid code. unfold Logging. rewrite Hend. cbn [snd].
  set (sw := Handler.run (Handler.ops next) (mkStatusWriter w 0 false false)).
  assert (Hcode : finalStatus sw = code).
  { unfold finalStatus. subst sw code.
    rewrite run_statusWriter_status by reflexivity.
    rewrite run_statusWriter_hijacked. simpl.
    destruct (firstStatus w (Handler.ops next)) as [c|] eqn:Hfs; simpl.
    - pose proof (firstStatus_valid _ _ _ Hvalid Hfs).
      destruct (Z.eqb_spec c 0); [lia | reflexivity].
    - reflexivity. }
  rewrite Hcode. exists (levelOf code).
  split; [reflexivity|].
  unfold levelOf, Http.StatusInternalServerError, StatusBadRequest.
  destruct (Z.geb_spec code 500); [|destruct (Z.geb_spec code 400)];
    repeat split; intros; try discriminate; try lia; try reflexivity.
Qed.

Lemma logging_records_first_status_witness :
  exists level,
    (Logging
       (Handler.mk [Handler.SetHeader "X-A" "1"; Handler.WriteHeader 404;
                    Handler.WriteHeader 500]
          Handler.Return)
       1000 2500 Recovery.sampleRequest Http.newRecorder).2
    = [Slog.mkRecord level "http request"
         (requestAttrs Recovery.sampleRequest 404 1500)] /\
    level = Slog.LevelWarn.
Proof.
  destruct (logging_records_first_status
              (Handler.mk [Handler.SetHeader "X-A" "1"; Handler.WriteHeader 404;
                           Handler.WriteHeader 500]
                 Handler.Return)
              1000 2500 Recovery.sampleRequest Http.newRecorder eq_refl)
    as (level & Hlog & _ & Hwarn & _).
  - repeat constructor; simpl; lia.
  - exists level. split; [exact Hlog|]. apply Hwarn. simpl. lia.
Defined.

(** One call through the wrapper, on a transport that takes writes. *)
Lemma step_statusWriter_transparent (sw : statusWriter) o :
  Http.hijacked (ResponseWriter sw) = false ->
  Http.broken (ResponseWriter sw) = false ->
  (written sw = true -> Http.status (ResponseWriter sw) <> None) ->
  finalWriteHeader o -> o <> Handler.Hijack ->
  let sw' := Handler.step sw o in
  ResponseWriter sw' = Handler.step (ResponseWriter sw) o /\
  Http.hijacked (ResponseWriter sw') = false /\
  Http.broken (ResponseWriter sw') = false /\
  (written sw' = true -> Http.status (ResponseWriter sw') <> None).
Proof.
  intros Hh Hb Hinv Hfinal Hno. destruct sw as [w s wr h]. simpl in *.
  destruct o; simpl; try (repeat split; assumption).
  - unfold WriteHeader. simpl. destruct wr; simpl.
    + rewrite WriteHeader_settled by auto. repeat split; auto.
    + destruct (WriteHeader_sink w code) as [Hh' Hb'].
      repeat split; try congruence.
      intros _. apply status_WriteHeader_final. exact Hfinal.
  - assert (Hwrite : Http.Write w b
                     = (Http.withBody (Http.WriteHeader w Http.StatusOK)
                          (Http.body (Http.WriteHeader w Http.StatusOK) ++ b),
                        None)).
    { unfold Http.Write. now rewrite Hh, Hb. }
    destruct (WriteHeader_sink w Http.StatusOK) as [Hh' Hb'].
    unfold Write. destruct wr; simpl; rewrite Hwrite; simpl;
      repeat split; try congruence;
      intros _; apply (status_WriteHeader_final w Http.StatusOK); reflexivity.
  - unfold Flush, Http.Flush. simpl.
    destruct (WriteHeader_sink w Http.StatusOK) as [Hh' Hb'].
    destruct (Http.canFlush w); simpl.
    + destruct wr; simpl; repeat split; try congruence;
        intros _; apply (status_WriteHeader_final w Http.StatusOK); reflexivity.
    + repeat split; assumption.
  - contradiction.
Qed.

Lemma run_statusWriter_transparent ops : forall sw : statusWriter,
  Http.hijacked (ResponseWriter sw) = false ->
  Http.broken (ResponseWriter sw) = false ->
  (written sw = true -> Http.status (ResponseWriter sw) <> None) ->
  Forall finalWriteHeader ops -> Forall (fun o => o <> Handler.Hijack) ops ->
  ResponseWriter (Handler.run ops sw) = Handler.run ops (ResponseWriter sw).
Proof.
  induction ops as [|o ops IH]; intros sw Hh Hb Hinv Hfinal Hno; [reflexivity|].
  change (Handler.run (o :: ops) sw) with (Handler.run ops (Handler.step sw o)).
  change (Handler.run (o :: ops) (ResponseWriter sw))
    with (Handler.run ops (Handler.step (ResponseWriter sw) o)).
  inversion Hfinal; inversion Hno; subst.
  destruct (step_statusWriter_transparent sw o) as (Hw & Hh' & Hb' & Hinv');
    try assumption.
  rewrite IH by assumption. now rewrite Hw.
Qed.

(** X20. On a transport that takes writes, a handler that sends no
    informational status line and does not hijack leaves the transport
    through the logging wrapper as it would without it, and ends the same
    way; a panic goes through the middleware and is not logged. *)
Theorem logging_transparent next start finish r w :
  Http.hijacked w = false -> Http.broken w = false ->
  Forall finalWriteHeader (Handler.ops next) ->
  Forall (fun o => o <> Handler.Hijack) (Handler.ops next) ->
  (Logging next start finish r w).1
  = (Handler.run (Handler.ops next) w, Handler.end_ next) /\
  ((Logging next start finish r w).2 = [] <->
   Handler.end_ next <> Handler.Return).
Proof.
  intros Hh Hb Hfinal Hno. unfold Logging.
  rewrite (run_statusWriter_transparent (Handler.ops next)
             (mkStatusWriter w 0 false false))
    by (simpl; auto; discriminate).
  destruct (Handler.end_ next); simpl.
  - split; [reflexivity|]. split; [discriminate | congruence].
  - split; [reflexivity|]. split; [discriminate | reflexivity].
Qed.

Lemma logging_transparent_witness :
  (Logging
     (Handler.mk [Handler.Write (list_byte_of_string "partial")]
        (Handler.Panic (Handler.NonError "boom")))
     0 1 Recovery.sampleRequest Http.newRecorder)
  = (Handler.run [Handler.Write (list_byte_of_string "partial")]
       Http.newRecorder,
     Handler.Panic (Handler.NonError "boom"), []).
Proof.
  destruct (logging_transparent
              (Handler.mk [Handler.Write (list_byte_of_string "partial")]
                 (Handler.Panic (Handler.NonError "boom")))
              0 1 Recovery.sampleRequest Http.newRecorder
              eq_refl eq_refl) as [Hres Hlog].
  - repeat constructor.
  - repeat constructor; discriminate.
  - rewrite (surjective_pairing (Logging _ _ _ _ _)), Hres.
    rewrite (proj2 Hlog); [reflexivity | discriminate].
Defined.

(** X26. The wrapper passes on one [WriteHeader] only, the first, even
    when it is informational: a handler that sends an informational status
    and then a final one has the final one reach the transport without the
    middleware, and not through it. The record then carries the
    informational status, at level Info. *)
Theorem logging_drops_status_after_informational start finish r w c1 c2 :
  Http.isInformational c1 = true -> Http.isInformational c2 = false ->
  Http.status w = None ->
  let next :=
    Handler.mk [Handler.WriteHeader c1; Handler.WriteHeader c2]
      Handler.Return in
  Http.status (Handler.run (Handler.ops next) w) = Some c2 /\
  Http.status (Logging next start finish r w).1.1 = None /\
  (Logging next start finish r w).2
  = [Slog.mkRecord Slog.LevelInfo "http request"
       (requestAttrs r c1 (RateLimit.Sub finish start))].
Proof.
  intros Hi1 Hi2 Hnone next. subst next.
  assert (Hrange : 100 <= c1 <= 199).
  { unfold Http.isInformational in Hi1.
    apply andb_true_iff in Hi1 as [Hi1 _].
    apply andb_true_iff in Hi1 as [Hlo Hhi]. lia. }
  unfold Logging. simpl. unfold WriteHeader. simpl.
  unfold Http.WriteHeader. rewrite Hnone, Hi1. simpl. rewrite Hnone, Hi2.
  repeat split.
  unfold finalStatus. simpl.
  destruct (Z.eqb_spec c1 0); [lia|].
  unfold levelOf, Http.StatusInternalServerError, StatusBadRequest.
  destruct (Z.geb_spec c1 500); [lia|].
  destruct (Z.geb_spec c1 400); [lia|]. reflexivity.
Qed.

Lemma logging_drops_status_after_informational_witness :
  let next :=
    Handler.mk [Handler.WriteHeader 103; Handler.WriteHeader 404]
      Handler.Return in
  Http.status (Handler.run (Handler.ops next) Http.newRecorder) = Some 404 /\
  Http.status (Logging next 0 1 Recovery.sampleRequest Http.newRecorder).1.1
  = None.
Proof.
  intros next.
  destruct (logging_drops_status_after_informational 0 1
              Recovery.sampleRequest Http.newRecorder 103 404
              eq_refl eq_refl eq_refl) as (Hdirect & Hwrapped & _).
  split; assumption.
Defined.

End LoggingFacts.

Module CompressCasesFacts.
Import Calls Compress CompressCases HttpCallFacts CompressFacts.
Local Open Scope Z_scope.

Section Writer.

Context `{Gzip} `{ContentSniffer}.


Lemma shouldSkipGzip_large w :
  shouldSkipGzip w = false -> minCompressSize <= Z.of_nat (length (buf w)).
Proof.
  unfold shouldSkipGzip.
  destruct (compressedContentTypes _); [discriminate|].
  destruct (Z.ltb_spec (Z.of_nat (length (buf w))) minCompressSize);
    [discriminate | lia].
Qed.


(** What a call on the gzip writer leaves of the wrapper. *)
Lemma emit_fields (w : gzipResponseWriter) g out :
  let w' := (emit w g out).1 in
  buf w' = buf w /\ statusCode w' = statusCode w /\
  decided w' = decided w /\ skipGzip w' = skipGzip w /\
  hijacked w' = hijacked w /\ commitErr w' = commitErr w /\ gw w' = g /\
  Http.header (ResponseWriter w') = Http.header (ResponseWriter w) /\
  (Http.status (ResponseWriter w) <> None ->
   Http.status (ResponseWriter w') = Http.status (ResponseWriter w)).
Proof.
  unfold emit. destruct out as [|x out]; simpl; [repeat split; auto|].
  pose proof (status_Write (ResponseWriter w) (x :: out)) as Hs.
  pose proof (HttpFacts.header_Write (ResponseWriter w) (x :: out)) as Hh.
  destruct (Http.Write (ResponseWriter w) (x :: out)) as [rw err].
  simpl in *. repeat split; auto.
Qed.

Lemma commit_fields w :
  decided w = false ->
  let code := if statusCode w =? 0 then Http.StatusOK else statusCode w in
  let w' := commit w in
  decided w' = true /\ skipGzip w' = shouldSkipGzip w /\
  statusCode w' = code /\ hijacked w' = hijacked w /\ buf w' = [] /\
  (Http.isInformational code = false ->
   Http.status (ResponseWriter w) = None ->
   Http.status (ResponseWriter w') = Some code).
Proof.
  intros Hd code w'. subst w'. unfold commit. rewrite Hd. fold code.
  set (h := if negb (shouldSkipGzip w) then _ else _).
  set (rw := Http.WriteHeader (Http.withHeader (ResponseWriter w) h) code).
  assert (Hrw : Http.isInformational code = false ->
                Http.status (ResponseWriter w) = None ->
                Http.status rw = Some code).
  { intros Hi Hs. subst rw. unfold Http.WriteHeader. simpl.
    rewrite Hs, Hi. reflexivity. }
  destruct (buf w) as [|x bs] eqn:Hbuf; [simpl; repeat split; auto|].
  destruct (shouldSkipGzip w) eqn:Hskip.
  - pose proof (status_Write rw (x :: bs)) as Hs.
    destruct (Http.Write rw (x :: bs)) as [rw' err]. simpl in *.
    repeat match goal with |- _ /\ _ => split end; auto.
    intros Hinf Hnone. rewrite Hs; rewrite (Hrw Hinf Hnone);
      [reflexivity | discriminate].
  - unfold gwWrite. simpl.
    destruct (gzWrite (gw w) (x :: bs)) as [g out].
    match goal with
    | |- context [emit ?w0 g out] =>
        destruct (emit_fields w0 g out) as (_ & _ & _ & _ & _ & _ & _ & _ & Hs);
        destruct (emit w0 g out) as [w'' err]
    end.
    simpl in *. repeat match goal with |- _ /\ _ => split end; auto.
    intros Hinf Hnone. rewrite Hs; rewrite (Hrw Hinf Hnone);
      [reflexivity | discriminate].
Qed.

Lemma written_single o :
  Handler.written [o] = match o with Handler.Write b => b | _ => [] end.
Proof. unfold Handler.written. destruct o; simpl; now rewrite ?app_nil_r. Qed.

Lemma firstCode_app done ops :
  firstCode (done ++ ops)
  = match firstCode done with Some c => Some c | None => firstCode ops end.
Proof.
  induction done as [|o done IH]; [reflexivity|].
  destruct o; simpl; auto.
Qed.

Lemma step_buffering w0 done (w : gzipResponseWriter) o :
  buffering w0 done w -> buffering w0 (done ++ [o]) (Handler.step w o).
Proof.
  unfold buffering. rewrite written_app, written_single, length_app.
  intros Hb. destruct o; simpl; rewrite ?app_nil_r.
  - destruct (decided w); [intros Hs; specialize (Hb Hs); lia | exact Hb].
  - destruct (decided w); [intros Hs; specialize (Hb Hs); lia | exact Hb].
  - destruct (decided w); [intros Hs; specialize (Hb Hs); lia | exact Hb].
  - unfold WriteHeader. destruct (statusCode w =? 0); simpl;
      (destruct (decided w); [intros Hs; specialize (Hb Hs); lia | exact Hb]).
  - unfold Write. destruct (commitErr w) eqn:He; simpl.
    { destruct (decided w); [intros Hs; specialize (Hb Hs); lia|].
      destruct Hb as (_ & _ & _ & ?). congruence. }
    set (w1 := if statusCode w =? 0 then withStatusCode w Http.StatusOK else w).
    assert (Hw1 : decided w1 = decided w /\ skipGzip w1 = skipGzip w /\
                  ResponseWriter w1 = ResponseWriter w /\ buf w1 = buf w /\
                  commitErr w1 = commitErr w)
      by (subst w1; destruct (statusCode w =? 0); auto).
    destruct Hw1 as (Hd1 & Hs1 & Hr1 & Hb1 & He1). clearbody w1.
    rewrite Hd1. destruct (decided w) eqn:Hd.
    + rewrite Hs1. destruct (skipGzip w) eqn:Hs.
      * destruct (Http.Write (ResponseWriter w1) b). simpl.
        rewrite Hd1, Hs1. discriminate.
      * unfold gwWrite. destruct (gzWrite (gw w1) b) as [g out].
        destruct (emit_fields w1 g out) as (_ & _ & -> & -> & _).
        rewrite Hd1. intros _. specialize (Hb eq_refl). lia.
    + destruct Hb as (Hst & Hbody & Hbuf & Hce).
      set (w2 := mkGzipWriter _ _ (buf w1 ++ b) _ _ _ _ _).
      assert (Hlen : Z.of_nat (length (buf w1 ++ b))
                     = Z.of_nat (length (Handler.written done) + length b)).
      { rewrite length_app, Hb1, Hbuf. reflexivity. }
      destruct (Z.geb_spec (Z.of_nat (length (buf w1 ++ b))) minCompressSize).
      * cbv zeta. cbn [fst].
        destruct (commit_fields w2) as (-> & _); [subst w2; simpl; congruence|].
        intros _. lia.
      * simpl. subst w2. simpl. rewrite ?Hd1, ?Hr1, ?Hb1, ?Hbuf, ?He1.
        repeat split; assumption.
  - unfold Flush.
    assert (Hc : decided (commit w) = true /\
                 (skipGzip (commit w) = false ->
                  minCompressSize <= Z.of_nat (length (Handler.written done)))).
    { destruct (decided w) eqn:Hd.
      - rewrite commit_decided by exact Hd. auto.
      - destruct (commit_fields w Hd) as (Hd' & Hs' & _).
        split; [exact Hd'|]. rewrite Hs'. intros Hskip.
        apply shouldSkipGzip_large in Hskip.
        destruct Hb as (_ & _ & Hbuf & _). now rewrite <- Hbuf. }
    destruct Hc as [Hd' Hlarge]. set (w1 := commit w) in *. clearbody w1.
    destruct (skipGzip w1) eqn:Hs; simpl.
    + rewrite Hd', Hs. discriminate.
    + unfold gwFlush. destruct (gzFlush (gw w1)) as [g out].
      destruct (emit_fields w1 g out) as (_ & _ & -> & -> & _).
      rewrite Hd'. intros _. specialize (Hlarge eq_refl). lia.
  - unfold Hijack, Http.Hijack.
    destruct (Http.canHijack (ResponseWriter w)); simpl;
      (destruct (decided w); [intros Hs; specialize (Hb Hs); lia | exact Hb]).
Qed.

Lemma run_buffering w0 ops : forall done (w : gzipResponseWriter),
  buffering w0 done w -> buffering w0 (done ++ ops) (Handler.run ops w).
Proof.
  induction ops as [|o ops IH]; intros done w Hb.
  - now rewrite app_nil_r.
  - change (Handler.run (o :: ops) w) with (Handler.run ops (Handler.step w o)).
    replace (done ++ o :: ops) with ((done ++ [o]) ++ ops)
      by (now rewrite <- app_assoc).
    apply IH, step_buffering, Hb.
Qed.

Lemma newGzipWriter_buffering w : buffering w [] (newGzipWriter w).
Proof. unfold buffering. simpl. auto. Qed.

Lemma step_hijacked (w : gzipResponseWriter) o :
  o <> Handler.Hijack -> hijacked (Handler.step w o) = hijacked w.
Proof.
  intros Hno. destruct o; simpl; try reflexivity.
  - unfold WriteHeader. destruct (statusCode w =? 0); reflexivity.
  - unfold Write. destruct (commitErr w); [reflexivity|].
    set (w1 := if statusCode w =? 0 then withStatusCode w Http.StatusOK else w).
    assert (Hw1 : hijacked w1 = hijacked w)
      by (subst w1; destruct (statusCode w =? 0); auto).
    clearbody w1.
    destruct (decided w1) eqn:Hd.
    + destruct (skipGzip w1).
      * destruct (Http.Write (ResponseWriter w1) b). simpl. exact Hw1.
      * unfold gwWrite. destruct (gzWrite (gw w1) b) as [g out].
        destruct (emit_fields w1 g out) as (_ & _ & _ & _ & -> & _). exact Hw1.
    + set (w2 := mkGzipWriter _ _ (buf w1 ++ b) _ _ _ _ _).
      destruct (_ >=? minCompressSize); cbv zeta; cbn [fst]; [|exact Hw1].
      destruct (commit_fields w2) as (_ & _ & _ & -> & _);
        [subst w2; simpl; congruence | exact Hw1].
  - unfold Flush.
    assert (Hc : hijacked (commit w) = hijacked w).
    { destruct (decided w) eqn:Hd; [now rewrite commit_decided|].
      now destruct (commit_fields w Hd) as (_ & _ & _ & -> & _). }
    set (w1 := commit w) in *. clearbody w1.
    destruct (skipGzip w1); simpl; [exact Hc|].
    unfold gwFlush. destruct (gzFlush (gw w1)) as [g out].
    destruct (emit_fields w1 g out) as (_ & _ & _ & _ & -> & _). exact Hc.
  - contradiction.
Qed.

Lemma run_hijacked ops : forall w : gzipResponseWriter,
  Forall (fun o => o <> Handler.Hijack) ops ->
  hijacked (Handler.run ops w) = hijacked w.
Proof.
  induction ops as [|o ops IH]; intros w Hno; [reflexivity|].
  inversion Hno; subst.
  change (Handler.run (o :: ops) w) with (Handler.run ops (Handler.step w o)).
  rewrite IH by assumption. now apply step_hijacked.
Qed.

Lemma step_undecided w0 done (w : gzipResponseWriter) o :
  buffering w0 done w -> decided w = false -> o <> Handler.Flush ->
  Z.of_nat (length (Handler.written (done ++ [o]))) < minCompressSize ->
  decided (Handler.step w o) = false.
Proof.
  unfold buffering. intros Hb Hd Hno. rewrite Hd in Hb.
  destruct Hb as (_ & _ & Hbuf & Hce).
  rewrite written_app, written_single, length_app.
  destruct o; simpl; intros Hlen; try exact Hd.
  - unfold WriteHeader. destruct (statusCode w =? 0); exact Hd.
  - unfold Write. rewrite Hce.
    set (w1 := if statusCode w =? 0 then withStatusCode w Http.StatusOK else w).
    assert (Hw1 : decided w1 = false /\ buf w1 = buf w)
      by (subst w1; destruct (statusCode w =? 0); auto).
    destruct Hw1 as [Hd1 Hb1]. clearbody w1. rewrite Hd1.
    match goal with
    | |- context [?a >=? minCompressSize] =>
        destruct (Z.geb_spec a minCompressSize) as [Hge|_]
    end; [|reflexivity].
    simpl in Hge. rewrite length_app, Hb1, Hbuf in Hge. lia.
  - contradiction.
  - unfold Hijack. destruct (Http.Hijack (ResponseWriter w)). exact Hd.
Qed.

Lemma run_undecided w0 ops : forall done (w : gzipResponseWriter),
  buffering w0 done w -> decided w = false ->
  Forall (fun o => o <> Handler.Flush) ops ->
  Z.of_nat (length (Handler.written (done ++ ops))) < minCompressSize ->
  decided (Handler.run ops w) = false.
Proof.
  induction ops as [|o ops IH]; intros done w Hb Hd Hno Hlen; [exact Hd|].
  inversion Hno; subst.
  change (Handler.run (o :: ops) w) with (Handler.run ops (Handler.step w o)).
  replace (done ++ o :: ops) with ((done ++ [o]) ++ ops) in Hlen
    by (now rewrite <- app_assoc).
  apply (IH (done ++ [o])); try assumption.
  - apply step_buffering, Hb.
  - apply (step_undecided w0 done); try assumption.
    rewrite written_app, length_app in Hlen. lia.
Qed.

Lemma step_settled w0 done (w : gzipResponseWriter) o :
  buffering w0 done w -> settled done w ->
  (decided w = true -> statusCode w <> 0) ->
  Handler.validOp o -> finalWriteHeader o ->
  settled (done ++ [o]) (Handler.step w o) /\
  (decided (Handler.step w o) = true -> statusCode (Handler.step w o) <> 0).
Proof.
  unfold settled. rewrite firstCode_app.
  intros Hb [Hcode Hst] Hnz Hvalid Hfinal.
  assert (Hok200 : 100 <= Http.StatusOK /\
                   Http.isInformational Http.StatusOK = false)
    by (split; [unfold Http.StatusOK; lia | reflexivity]).
  destruct o; simpl.
  - destruct (firstCode done); auto.
  - destruct (firstCode done); auto.
  - destruct (firstCode done); auto.
  - unfold WriteHeader.
    destruct (firstCode done) as [c|].
    + destruct Hcode as (Hc & Hge & Hinf).
      destruct (Z.eqb_spec (statusCode w) 0); [lia|]. auto.
    + rewrite Hcode. simpl.
      destruct (decided w) eqn:Hd; [specialize (Hnz eq_refl); contradiction|].
      simpl in Hvalid, Hfinal. repeat split; auto; try lia; try discriminate.
  - unfold Write. destruct (commitErr w) eqn:He; simpl.
    { destruct (firstCode done) as [c|]; [auto|].
      destruct (decided w) eqn:Hd; [specialize (Hnz eq_refl); contradiction|].
      unfold buffering in Hb. rewrite Hd in Hb.
      destruct Hb as (_ & _ & _ & ?). congruence. }
    set (w1 := if statusCode w =? 0 then withStatusCode w Http.StatusOK else w).
    assert (Hw1 : decided w1 = decided w /\ skipGzip w1 = skipGzip w /\
                  ResponseWriter w1 = ResponseWriter w /\
                  statusCode w1 <> 0 /\
                  match firstCode done with
                  | Some c => Some c
                  | None => Some Http.StatusOK
                  end = Some (statusCode w1) /\
                  100 <= statusCode w1 /\
                  Http.isInformational (statusCode w1) = false).
    { subst w1. destruct (firstCode done) as [c|].
      - destruct Hcode as (Hc & Hge & Hinf).
        destruct (Z.eqb_spec (statusCode w) 0); [lia|].
        repeat split; auto; congruence.
      - rewrite Hcode. simpl. repeat split; auto. discriminate. }
    destruct Hw1 as (Hd1 & Hs1 & Hr1 & Hnz1 & -> & Hge1 & Hinf1).
    assert (Hst1 : if decided w1
                   then Http.status (ResponseWriter w1) = Some (statusCode w1)
                   else Http.status (ResponseWriter w1) = None).
    { rewrite Hd1, Hr1. destruct (decided w) eqn:Hd; [|exact Hst].
      rewrite Hst. f_equal. subst w1.
      destruct (Z.eqb_spec (statusCode w) 0);
        [specialize (Hnz eq_refl); contradiction | reflexivity]. }
    clearbody w1. clear Hcode Hst Hnz Hb He Hd1 Hs1 Hr1.
    destruct (decided w1) eqn:Hd.
    + destruct (skipGzip w1) eqn:Hs.
      * pose proof (status_Write (ResponseWriter w1) b) as Hsw.
        destruct (Http.Write (ResponseWriter w1) b) as [rw err]. simpl in *.
        rewrite Hd. repeat split; auto.
        rewrite Hsw; [exact Hst1 | rewrite Hst1; discriminate].
      * unfold gwWrite. destruct (gzWrite (gw w1) b) as [g out].
        destruct (emit_fields w1 g out)
          as (_ & -> & -> & _ & _ & _ & _ & _ & Hsw).
        rewrite Hd. repeat split; auto.
        rewrite Hsw; [exact Hst1 | rewrite Hst1; discriminate].
    + set (w2 := mkGzipWriter _ _ (buf w1 ++ b) _ _ _ _ _).
      destruct (_ >=? minCompressSize); cbv zeta; cbn [fst].
      * destruct (commit_fields w2) as (-> & _ & -> & _ & _ & Hsc);
          [reflexivity|].
        subst w2. simpl in *.
        destruct (Z.eqb_spec (statusCode w1) 0); [contradiction|].
        repeat split; auto.
      * subst w2. simpl. repeat split; auto; congruence.
  - unfold Flush.
    assert (Hc : decided (commit w) = true /\
                 statusCode (commit w) <> 0 /\
                 match firstCode done with
                 | Some c => Some c
                 | None => Some Http.StatusOK
                 end = Some (statusCode (commit w)) /\
                 100 <= statusCode (commit w) /\
                 Http.isInformational (statusCode (commit w)) = false /\
                 Http.status (ResponseWriter (commit w))
                 = Some (statusCode (commit w))).
    { destruct (decided w) eqn:Hd.
      - rewrite commit_decided by exact Hd. specialize (Hnz eq_refl).
        destruct (firstCode done) as [c|]; [|contradiction].
        destruct Hcode as (Hc & Hge & Hinf). subst c. auto 10.
      - destruct (commit_fields w Hd) as (Hd' & _ & Hsc & _ & _ & Hstatus).
        rewrite Hsc. revert Hstatus.
        destruct (firstCode done) as [c|].
        + destruct Hcode as (Hc & Hge & Hinf).
          destruct (Z.eqb_spec (statusCode w) 0); [lia|]. intros Hstatus.
          repeat split; auto; try congruence.
          apply Hstatus; congruence.
        + rewrite Hcode. simpl. intros Hstatus.
          repeat split; auto; try discriminate; try apply Hok200. }
    destruct Hc as (Hd' & Hnz' & -> & Hge' & Hinf' & Hst').
    set (w1 := commit w) in *. clearbody w1.
    assert (Hflush : forall w2 : gzipResponseWriter,
              decided w2 = true -> statusCode w2 = statusCode w1 ->
              Http.status (ResponseWriter w2) = Some (statusCode w1) ->
              let w3 := withWriter w2 (Http.Flush (ResponseWriter w2)).1 in
              ((statusCode w3 = statusCode w1 /\
                100 <= statusCode w1 /\
                Http.isInformational (statusCode w1) = false) /\
               (if decided w3
                then Http.status (ResponseWriter w3) = Some (statusCode w3)
                else Http.status (ResponseWriter w3) = None)) /\
              (decided w3 = true -> statusCode w3 <> 0)).
    { intros w2 Hd2 Hc2 Hs2. simpl. rewrite Hd2, Hc2.
      repeat split; auto.
      rewrite status_Flush; [exact Hs2 | rewrite Hs2; discriminate]. }
    destruct (skipGzip w1) eqn:Hs; simpl negb; cbv iota.
    + apply Hflush; auto.
    + unfold gwFlush. destruct (gzFlush (gw w1)) as [g out].
      destruct (emit_fields w1 g out)
        as (_ & Hc2 & Hd2 & _ & _ & _ & _ & _ & Hsw).
      apply Hflush; [congruence | exact Hc2 |].
      rewrite Hsw; [exact Hst' | rewrite Hst'; discriminate].
  - unfold Hijack, Http.Hijack.
    destruct (Http.canHijack (ResponseWriter w)); simpl;
      (destruct (firstCode done); auto).
Qed.

Lemma run_settled w0 ops : forall done (w : gzipResponseWriter),
  buffering w0 done w -> settled done w ->
  (decided w = true -> statusCode w <> 0) ->
  Forall Handler.validOp ops -> Forall finalWriteHeader ops ->
  settled (done ++ ops) (Handler.run ops w) /\
  (decided (Handler.run ops w) = true -> statusCode (Handler.run ops w) <> 0).
Proof.
  induction ops as [|o ops IH]; intros done w Hb Hs Hnz Hvalid Hfinal.
  - rewrite app_nil_r. auto.
  - inversion Hvalid; inversion Hfinal; subst.
    change (Handler.run (o :: ops) w) with (Handler.run ops (Handler.step w o)).
    replace (done ++ o :: ops) with ((done ++ [o]) ++ ops)
      by (now rewrite <- app_assoc).
    destruct (step_settled w0 done w o) as [Hs' Hnz']; try assumption.
    apply IH; try assumption. apply step_buffering, Hb.
Qed.


Lemma newGzipWriter_settled w :
  Http.status w = None -> settled [] (newGzipWriter w).
Proof. intros Hs. unfold settled. simpl. auto. Qed.

(** X22. A handler that returns without hijacking gets the status it
    chose: the transport is sent the code of its first [WriteHeader], or 200
    if it wrote or flushed before any, whether the response is compressed or
    not and however late the decision is taken. Later calls of
    [WriteHeader] change nothing. *)
Theorem compress_sends_first_status next w :
  Handler.end_ next = Handler.Return ->
  Forall Handler.validOp (Handler.ops next) ->
  Forall finalWriteHeader (Handler.ops next) ->
  Forall (fun o => o <> Handler.Hijack) (Handler.ops next) ->
  Http.status w = None ->
  Http.status (ResponseWriter (compressed next w))
  = Some (default Http.StatusOK (firstCode (Handler.ops next))).
Proof.
  intros Hend Hvalid Hfinal Hno Hnone.
  unfold compressed, finish. rewrite Hend.
  pose proof (run_buffering w (Handler.ops next) [] _
                (newGzipWriter_buffering w)) as Hb.
  destruct (run_settled w (Handler.ops next) [] (newGzipWriter w))
    as [[Hcode Hst] Hnz]; try assumption.
  { apply newGzipWriter_buffering. }
  { apply newGzipWriter_settled, Hnone. }
  { discriminate. }
  pose proof (run_hijacked (Handler.ops next) (newGzipWriter w) Hno) as Hhij.
  simpl in Hb, Hcode, Hst, Hhij.
  set (wf := Handler.run (Handler.ops next) (newGzipWriter w)) in *.
  clearbody wf. unfold close. rewrite Hhij.
  assert (Hc : Http.status (ResponseWriter (commit wf))
               = Some (default Http.StatusOK (firstCode (Handler.ops next)))).
  { destruct (decided wf) eqn:Hd.
    - rewrite commit_decided by exact Hd. rewrite Hst. f_equal.
      specialize (Hnz eq_refl).
      destruct (firstCode (Handler.ops next)) as [c|]; [|contradiction].
      simpl. apply Hcode.
    - destruct (commit_fields wf Hd) as (_ & _ & _ & _ & _ & Hstatus).
      revert Hstatus.
      destruct (firstCode (Handler.ops next)) as [c|]; simpl.
      + destruct Hcode as (Hc & Hge & Hinf).
        destruct (Z.eqb_spec (statusCode wf) 0); [lia|].
        intros Hstatus. rewrite Hstatus; congruence.
      + rewrite Hcode. simpl. intros Hstatus. apply Hstatus; auto. }
  destruct (skipGzip (commit wf)); simpl; [exact Hc|].
  unfold gwClose.
  destruct (emit_fields (commit wf) (gw (commit wf)) (gzClose (gw (commit wf))))
    as (_ & _ & _ & _ & _ & _ & _ & _ & Hsw).
  rewrite Hsw; [exact Hc | rewrite Hc; discriminate].
Qed.


(** X24. When the handler panics before the decision (it has written
    fewer than 256 bytes in all and has not flushed), nothing of what it
    wrote has reached the transport: no status line, no byte of the body.
    The buffer is dropped with the wrapper. *)
Theorem compress_drops_buffer_on_panic next w v :
  Handler.end_ next = Handler.Panic v ->
  Forall (fun o => o <> Handler.Flush) (Handler.ops next) ->
  Z.of_nat (length (Handler.written (Handler.ops next))) < minCompressSize ->
  let grw := compressed next w in
  decided grw = false /\
  buf grw = Handler.written (Handler.ops next) /\
  Http.status (ResponseWriter grw) = Http.status w /\
  Http.body (ResponseWriter grw) = Http.body w.
Proof.
  intros Hend Hno Hlen. cbv zeta.
  unfold compressed, finish. rewrite Hend.
  pose proof (run_buffering w (Handler.ops next) [] _
                (newGzipWriter_buffering w)) as Hb.
  pose proof (run_undecided w (Handler.ops next) [] _
                (newGzipWriter_buffering w) eq_refl Hno Hlen) as Hd.
  simpl in Hb. unfold buffering in Hb. rewrite Hd in Hb. rewrite Hd. simpl.
  destruct Hb as (Hs & Hbody & Hbuf & _). auto.
Qed.

End Writer.

Section Negotiation.

Context `{FloatParser}.


End Negotiation.


Lemma compress_sends_first_status_witness :
  Http.status (ResponseWriter (compressed created Http.newRecorder))
  = Some 201.
Proof.
  apply (compress_sends_first_status created Http.newRecorder).
  - reflexivity.
  - repeat constructor; simpl; lia.
  - repeat constructor.
  - repeat constructor; discriminate.
  - reflexivity.
Defined.


Lemma compress_drops_buffer_on_panic_witness :
  let grw := compressed smallThenPanic Http.newRecorder in
  Http.status (ResponseWriter grw) = None /\
  Http.body (ResponseWriter grw) = [].
Proof.
  intros grw.
  destruct (compress_drops_buffer_on_panic smallThenPanic Http.newRecorder
              (Handler.NonError "boom"))
    as (_ & _ & Hs & Hb).
  - reflexivity.
  - repeat constructor; discriminate.
  - vm_compute. reflexivity.
  - split; [exact Hs | exact Hb].
Defined.

End CompressCasesFacts.
